(** * koa-lad: the web authentication controller

    A shallow embedding of [app/controllers/web/auth.js]: the handlers
    [registerOrLogin], [register], [forgotPassword] and [resetPassword],
    written with explicit state passing over the Koa context and the two
    Mongoose collections ([Users], [Jobs]) they touch.

    Conventions.
    - Instants are [Z], milliseconds since the epoch.  A handler reads the
      clock once per request ([now]).
    - A JavaScript value that is [null] or [undefined] is [None].
    - A Mongoose document is identified by its position in the collection;
      [save] writes the document back at that position.
    - [user.save()] and [ctx.login(user)] are modelled as total: the
      handlers have no code of their own for their failure.
    - [login], [logout] and [homeOrDashboard] assign neither the reset
      token fields nor the group of an account and are left out. *)

From Stdlib Require Import ZArith String Ascii Bool Lia.
From stdpp Require Import base list strings.

Local Open Scope Z_scope.

(** ** JavaScript strings *)

Module Js.

(** [s.indexOf(t)]: the least position at which [t] occurs in [s],
    or [-1]. *)
Fixpoint indexOfFrom (t s : string) (i : Z) : Z :=
  if String.prefix t s then i
  else match s with
       | EmptyString => -1
       | String _ s' => indexOfFrom t s' (i + 1)
       end.

Definition indexOf (s t : string) : Z := indexOfFrom t s 0.

(** The characters matched by [\s], among the 8-bit ones. *)
Definition isSpace (c : ascii) : bool :=
  let n := nat_of_ascii c in
  ((9 <=? n)%nat && (n <=? 13)%nat) || (n =? 32)%nat || (n =? 160)%nat.

(** [s.isBlank(str)] of underscore.string: [/^\s*$/.test(str)]. *)
Fixpoint isBlank (s : string) : bool :=
  match s with
  | EmptyString => true
  | String c s' => isSpace c && isBlank s'
  end.

(** Truthiness of a string: only the empty string is falsy. *)
Definition truthy (s : string) : bool :=
  match s with EmptyString => false | String _ _ => true end.

(** A value read from the request; [_.isString] holds of [VString]
    only. *)
Inductive Value :=
| VString (s : string)
| VOther.

Definition isString (v : Value) : bool :=
  match v with VString _ => true | VOther => false end.

(** What the specification means by "contains" and "begins with". *)
Definition Contains (s t : string) : Prop :=
  exists a b : string, s = a +:+ t +:+ b.

Definition BeginsWith (s t : string) : Prop :=
  exists b : string, s = t +:+ b.

End Js.

(** ** moment *)

Module Moment.

(** [moment(t).add(n, 'minutes')]. *)
Definition add_minutes (t n : Z) : Z := t + n * 60000.

(** [moment(t).isBefore(u)]. *)
Definition isBefore (t u : Z) : bool := t <? u.

(** [moment(t).fromNow()]: the signed distance from the present to [t];
    positive for an instant in the future ("in 12 minutes"), negative
    for one in the past ("12 minutes ago").  Only its rendering as text
    is left out. *)
Definition fromNow (t now : Z) : Z := t - now.

End Moment.

(** ** Documents *)

Record User := mkUser {
  email : string;
  group : string;
  display_name : string;
  hash : string;
  reset_token : option string;
  reset_token_expires_at : option Z;
  reset_at : option Z
}.

Definition set_reset_token (v : option string) (u : User) : User :=
  mkUser (email u) (group u) (display_name u) (hash u)
         v (reset_token_expires_at u) (reset_at u).

Definition set_reset_token_expires_at (v : option Z) (u : User) : User :=
  mkUser (email u) (group u) (display_name u) (hash u)
         (reset_token u) v (reset_at u).

Definition set_reset_at (v : option Z) (u : User) : User :=
  mkUser (email u) (group u) (display_name u) (hash u)
         (reset_token u) (reset_token_expires_at u) v.

Definition set_hash (v : string) (u : User) : User :=
  mkUser (email u) (group u) (display_name u) v
         (reset_token u) (reset_token_expires_at u) (reset_at u).

Inductive Locals :=
| WelcomeLocals (user : User)
| ResetLocals (display_name : string) (reset_token_expires_at : option Z)
              (link : string).

Record Job := mkJob {
  name : string;
  template : string;
  to : string;
  locals : Locals
}.

(** ** Messages, errors, responses *)

Inductive MsgKey :=
| INVALID_EMAIL
| INVALID_PASSWORD
| INVALID_RESET_TOKEN
| INVALID_RESET_PASSWORD
| INVALID_PASSWORD_STRENGTH
| PASSWORD_RESET_LIMIT
| PASSWORD_RESET_SENT
| RESET_PASSWORD
| REGISTERED.

Inductive Message :=
| translate (k : MsgKey)
| translate_with (k : MsgKey) (fromNow : Z)
| err_message (s : string).

Inductive Boom :=
| badRequest (m : Message).

Inductive Completion :=
| Returned
| Thrown (e : Boom).

Inductive Response :=
| NoResponse
| Render (view : string)
| Redirect (url : string)
| Body_redirectTo (redirectTo : string)
| Body_message (message : Message)
| Body_message_redirectTo (message : Message) (redirectTo : string).

Inductive Flash :=
| flash_custom (title : string) (text : Message)
| flash_success (text : Message).

Inductive LogEntry :=
| log_warn (s : string)
| log_debug (s : string) (job : Job)
| log_error (s : string).

(** ** The Koa context and the collections *)

(** The read-only part of a request. *)
Record Request := mkRequest {
  query_return_to : Js.Value;
  query_redirect_to : Js.Value;
  pathWithoutLocale : string;
  body_email : Js.Value;
  body_password : Js.Value;
  params_token : Js.Value;
  accepts_json : bool;
  locale : string
}.

(** What a handler can change: the session, the response under
    construction, the log, and the two collections. *)
Record State := mkState {
  session_returnTo : option string;
  session_user : option User;
  state_verb : option string;
  response : Response;
  flashes : list Flash;
  logger : list LogEntry;
  Users : list User;
  Jobs : list Job
}.

Definition set_returnTo (v : option string) (st : State) : State :=
  mkState v (session_user st) (state_verb st) (response st) (flashes st)
          (logger st) (Users st) (Jobs st).

Definition set_session_user (v : option User) (st : State) : State :=
  mkState (session_returnTo st) v (state_verb st) (response st) (flashes st)
          (logger st) (Users st) (Jobs st).

Definition set_verb (v : option string) (st : State) : State :=
  mkState (session_returnTo st) (session_user st) v (response st) (flashes st)
          (logger st) (Users st) (Jobs st).

Definition set_response (v : Response) (st : State) : State :=
  mkState (session_returnTo st) (session_user st) (state_verb st) v (flashes st)
          (logger st) (Users st) (Jobs st).

Definition ctx_flash (f : Flash) (st : State) : State :=
  mkState (session_returnTo st) (session_user st) (state_verb st) (response st)
          (flashes st ++ [f]) (logger st) (Users st) (Jobs st).

Definition ctx_log (e : LogEntry) (st : State) : State :=
  mkState (session_returnTo st) (session_user st) (state_verb st) (response st)
          (flashes st) (logger st ++ [e]) (Users st) (Jobs st).

Definition set_Users (v : list User) (st : State) : State :=
  mkState (session_returnTo st) (session_user st) (state_verb st) (response st)
          (flashes st) (logger st) v (Jobs st).

Definition set_Jobs (v : list Job) (st : State) : State :=
  mkState (session_returnTo st) (session_user st) (state_verb st) (response st)
          (flashes st) (logger st) (Users st) v.

(** [ctx.login(user)]. *)
Definition ctx_login (u : User) (st : State) : State :=
  set_session_user (Some u) st.

(** [ctx.redirect(url)]. *)
Definition ctx_redirect (url : string) (st : State) : State :=
  set_response (Redirect url) st.

(** What a request draws from outside the program: the clock, the random
    token of [randomstring.token()], and whether [Jobs.create] goes
    through ([None]) or throws an error with the given message. *)
Record Env := mkEnv {
  now : Z;
  randomstring_token : string;
  jobs_failure : option string
}.

Record Config := mkConfig {
  urls_web : string;
  successReturnToOrRedirect : string
}.

(** ** Collection operations *)

(** [Users.findOne(q)]: the first document that satisfies the query,
    with its position. *)
Fixpoint findOneFrom (q : User -> bool) (us : list User) (i : nat)
  : option (nat * User) :=
  match us with
  | [] => None
  | u :: us' => if q u then Some (i, u) else findOneFrom q us' (S i)
  end.

Definition findOne (q : User -> bool) (us : list User) : option (nat * User) :=
  findOneFrom q us 0%nat.

(** [Users.count(q)]. *)
Definition count (q : User -> bool) (us : list User) : nat :=
  length (List.filter q us).

(** [user.save()] for the document found at position [i]. *)
Definition save (i : nat) (u : User) (st : State) : State :=
  set_Users (<[i:=u]> (Users st)) st.

(** [{ field: value }] on an optional string field. *)
Definition field_is (f : option string) (v : string) : bool :=
  match f with
  | Some x => String.eqb x v
  | None => false
  end.

(** [{ field: { $gte: t } }] on an optional date field. *)
Definition field_gte (f : option Z) (t : Z) : bool :=
  match f with
  | Some x => t <=? x
  | None => false
  end.

(** [{ email: e }]. *)
Definition q_email (e : string) (u : User) : bool :=
  String.eqb (email u) e.

(** [{ group: g }]. *)
Definition q_group (g : string) (u : User) : bool :=
  String.eqb (group u) g.

(** [{ email, reset_token, reset_token_expires_at: { $gte: now } }]. *)
Definition q_reset (e tok : string) (t : Z) (u : User) : bool :=
  String.eqb (email u) e
  && field_is (reset_token u) tok
  && field_gte (reset_token_expires_at u) t.

(** [Jobs.create(job)] inside its [try]/[catch]: the job is queued and
    logged, or the error is logged. *)
Definition Jobs_create (env : Env) (what : string) (j : Job) (st : State)
  : State :=
  match jobs_failure env with
  | None => ctx_log (log_debug what j) (set_Jobs (Jobs st ++ [j]) st)
  | Some err => ctx_log (log_error err) st
  end.

(** ** The controller *)

Section Controller.

(** [config.urls.web] and [config.passportCallbackOptions]. *)
Variable config : Config.

(** [validator.isEmail]. *)
Variable isEmail : string -> bool.

(** The credential store behind passport-local-mongoose: the stored
    credential for a raw password, or [None] when the password is
    refused. *)
Variable credential : string -> option string.

(** [_.isString(v) && validator.isEmail(v)]. *)
Definition email_of (v : Js.Value) : option string :=
  match v with
  | Js.VString s => if isEmail s then Some s else None
  | Js.VOther => None
  end.

(** [_.isString(v) && !s.isBlank(v)]. *)
Definition nonblank_of (v : Js.Value) : option string :=
  match v with
  | Js.VString s => if Js.isBlank s then None else Some s
  | Js.VOther => None
  end.

(** Modelled from the spec: [user.setPassword] of the Users model, which
    is not part of this file.  "setPassword(account, rawPassword) ->
    success | fails(WeakPassword)": it writes the credential of the
    account and nothing else, or fails and writes nothing. *)
Definition setPassword (u : User) (password : string) : option User :=
  match credential password with
  | Some h => Some (set_hash h u)
  | None => None
  end.

Inductive RegisterError :=
| UserExistsError
| PasswordError.

Definition register_message (e : RegisterError) : string :=
  match e with
  | UserExistsError => "A user with the given username is already registered"
  | PasswordError => "No password was given"
  end.

(** Modelled from the spec: [Users.registerAsync] of the Users model,
    which is not part of this file.  "Fails with DuplicateEmail if the
    email already exists"; "on success, delegates password hashing/storage
    to CredentialStore; returns the new Account".  The new document has
    the email and the group it is given and no reset token. *)
Definition registerAsync (e g password : string) (us : list User)
  : RegisterError + (User * list User) :=
  if existsb (q_email e) us then inl UserExistsError
  else match setPassword (mkUser e g "" "" None None None) password with
       | None => inl PasswordError
       | Some u => inr (u, us ++ [u])
       end.

(** Lines 38-43: a non-blank [return_to], or else a non-blank
    [redirect_to], becomes the session's [returnTo]. *)
Definition take_return_to (rq : Request) (st : State) : State :=
  match nonblank_of (query_return_to rq) with
  | Some r => set_returnTo (Some r) st
  | None =>
      match nonblank_of (query_redirect_to rq) with
      | Some r => set_returnTo (Some r) st
      | None => st
      end
  end.

(** The condition of lines 46-50. *)
Definition hijacking (returnTo : option string) : bool :=
  match returnTo with
  | Some r =>
      Js.truthy r
      && negb (Js.indexOf r "://" =? -1)
      && negb (Js.indexOf r (urls_web config) =? 0)
  | None => false
  end.

(** Lines 46-53. *)
Definition prevent_open_redirect (st : State) : State :=
  match session_returnTo st with
  | Some r =>
      if hijacking (Some r) then
        set_returnTo None
          (ctx_log (log_warn ("Prevented abuse with returnTo hijacking to " +:+ r)) st)
      else st
  | None => st
  end.

Definition registerOrLogin (rq : Request) (st : State) : Completion * State :=
  let st := take_return_to rq st in
  let st := prevent_open_redirect st in
  let verb := if String.eqb (pathWithoutLocale rq) "/register"
              then "sign up" else "sign in" in
  let st := set_verb (Some verb) st in
  (Returned, set_response (Render "register-or-login") st).

(** [ctx.session.returnTo] if it is set (it is then deleted), the default
    destination otherwise. *)
Definition take_redirectTo (rq : Request) (st : State) : string * State :=
  let redirectTo := "/" +:+ locale rq +:+ successReturnToOrRedirect config in
  match session_returnTo st with
  | Some r => if Js.truthy r then (r, set_returnTo None st) else (redirectTo, st)
  | None => (redirectTo, st)
  end.

Definition register (env : Env) (rq : Request) (st : State)
  : Completion * State :=
  match email_of (body_email rq) with
  | None => (Thrown (badRequest (translate INVALID_EMAIL)), st)
  | Some e =>
  match nonblank_of (body_password rq) with
  | None => (Thrown (badRequest (translate INVALID_PASSWORD)), st)
  | Some password =>
      let n := count (q_group "admin") (Users st) in
      match registerAsync e (if (n =? 0)%nat then "admin" else "user")
                          password (Users st) with
      | inl err => (Thrown (badRequest (err_message (register_message err))), st)
      | inr (user, us) =>
          let st := set_Users us st in
          let st := ctx_login user st in
          let '(redirectTo, st) := take_redirectTo rq st in
          let st := ctx_flash (flash_custom "Thanks!" (translate REGISTERED)) st in
          let st := if accepts_json rq
                    then set_response (Body_redirectTo redirectTo) st
                    else ctx_redirect redirectTo st in
          let st := Jobs_create env "queued welcome email"
                      (mkJob "email" "welcome" (email user) (WelcomeLocals user))
                      st in
          (Returned, st)
      end
  end
  end.

(** The response of [forgotPassword] on both of its successful paths. *)
Definition reset_sent (rq : Request) (st : State) : State :=
  if accepts_json rq
  then set_response (Body_message (translate PASSWORD_RESET_SENT)) st
  else ctx_redirect "back"
         (ctx_flash (flash_success (translate PASSWORD_RESET_SENT)) st).

(** The condition of lines 234-238; when it holds, the argument of the
    message: [moment(user.reset_token_expires_at).fromNow()]. *)
Definition reset_limit (t : Z) (u : User) : option Z :=
  match reset_token_expires_at u, reset_token u with
  | Some expires_at, Some tok =>
      if Js.truthy tok
         && Moment.isBefore expires_at (Moment.add_minutes t 30)
      then Some (Moment.fromNow expires_at t)
      else None
  | _, _ => None
  end.

Definition forgotPassword (env : Env) (rq : Request) (st : State)
  : Completion * State :=
  match email_of (body_email rq) with
  | None => (Thrown (badRequest (translate INVALID_EMAIL)), st)
  | Some e =>
  match findOne (q_email e) (Users st) with
  | None => (Returned, reset_sent rq st)
  | Some (i, user) =>
  match reset_limit (now env) user with
  | Some wait =>
      (Thrown (badRequest (translate_with PASSWORD_RESET_LIMIT wait)), st)
  | None =>
      let user := set_reset_token_expires_at
                    (Some (Moment.add_minutes (now env) 30)) user in
      let user := set_reset_token (Some (randomstring_token env)) user in
      let st := save i user st in
      let st := reset_sent rq st in
      let link := urls_web config +:+ "/reset-password/"
                  +:+ randomstring_token env in
      let st := Jobs_create env "Queued reset password email"
                  (mkJob "email" "reset-password" (email user)
                     (ResetLocals (display_name user)
                                  (reset_token_expires_at user) link))
                  st in
      (Returned, st)
  end
  end
  end.

(** The [finally] block of [resetPassword]. *)
Definition reset_finally (rq : Request) (i : nat) (user : User) (st : State)
  : State :=
  let st := save i user st in
  let st := ctx_login user st in
  if accepts_json rq
  then set_response
         (Body_message_redirectTo (translate RESET_PASSWORD) ("/" +:+ locale rq))
         st
  else ctx_redirect ("/" +:+ locale rq)
         (ctx_flash (flash_success (translate RESET_PASSWORD)) st).

Definition resetPassword (env : Env) (rq : Request) (st : State)
  : Completion * State :=
  match email_of (body_email rq) with
  | None => (Thrown (badRequest (translate INVALID_EMAIL)), st)
  | Some e =>
  match nonblank_of (body_password rq) with
  | None => (Thrown (badRequest (translate INVALID_PASSWORD)), st)
  | Some password =>
  match nonblank_of (params_token rq) with
  | None => (Thrown (badRequest (translate INVALID_RESET_TOKEN)), st)
  | Some token =>
  match findOne (q_reset e token (now env)) (Users st) with
  | None => (Thrown (badRequest (translate INVALID_RESET_PASSWORD)), st)
  | Some (i, user) =>
      let user := set_reset_token None user in
      let user := set_reset_at None user in
      match setPassword user password with
      | Some user => (Returned, reset_finally rq i user st)
      | None =>
          (Thrown (badRequest (translate INVALID_PASSWORD_STRENGTH)),
           reset_finally rq i user st)
      end
  end
  end
  end
  end.

End Controller.

(** ** Histories of requests *)

(** One call of a handler of the controller, with what it draws from
    outside. *)
Inductive Call :=
| call_registerOrLogin (rq : Request)
| call_register (env : Env) (rq : Request)
| call_forgotPassword (env : Env) (rq : Request)
| call_resetPassword (env : Env) (rq : Request).

Section Histories.

Variable config : Config.
Variable isEmail : string -> bool.
Variable credential : string -> option string.

Definition run (c : Call) (st : State) : Completion * State :=
  match c with
  | call_registerOrLogin rq => registerOrLogin config rq st
  | call_register env rq => register config isEmail credential env rq st
  | call_forgotPassword env rq => forgotPassword config isEmail env rq st
  | call_resetPassword env rq => resetPassword isEmail credential env rq st
  end.

(** The state after a sequence of calls; a call that throws still leaves
    the state it has reached. *)
Fixpoint runs (cs : list Call) (st : State) : State :=
  match cs with
  | [] => st
  | c :: cs' => runs cs' (snd (run c st))
  end.

End Histories.

(** The token a call draws from [randomstring.token()], if it is a call
    of [forgotPassword]. *)
Definition draws (tok : string) (c : Call) : Prop :=
  match c with
  | call_forgotPassword env _ => randomstring_token env = tok
  | _ => False
  end.

(** ** Properties of collections and accounts *)

(** The unique index of the Users schema on [email]. *)
Definition unique_emails (us : list User) : Prop :=
  NoDup (email <$> us).

(** No account under email [e] holds the reset token [tok]. *)
Definition no_token (e tok : string) (us : list User) : Prop :=
  forall u : User, u ∈ us -> email u = e -> reset_token u <> Some tok.

(** Both token fields set, or both cleared. *)
Definition paired (u : User) : Prop :=
  (reset_token u = None /\ reset_token_expires_at u = None)
  \/ (reset_token u <> None /\ reset_token_expires_at u <> None).

(** What the specification calls the cooldown: the token of the account
    was issued (thirty minutes before it expires) less than thirty minutes
    before [t]. *)
Definition spec_within_cooldown (t : Z) (u : User) : Prop :=
  exists expires_at : Z,
    reset_token_expires_at u = Some expires_at
    /\ t - Moment.add_minutes expires_at (-30) < 30 * 60000.

(** What one call may do to the Users collection: nothing; save one
    document, with its email and group as they were and its reset token
    cleared or replaced by the token the call draws; or create one
    document, under an email that is not taken and without reset token. *)
Inductive users_step (c : Call) (us : list User) : list User -> Prop :=
| users_same :
    users_step c us us
| users_save (i : nat) (u u' : User) :
    us !! i = Some u ->
    email u' = email u ->
    group u' = group u ->
    reset_token u' = None
    \/ (exists tok : string, reset_token u' = Some tok /\ draws tok c) ->
    users_step c us (<[i:=u']> us)
| users_create (u : User) :
    (forall v : User, v ∈ us -> email v <> email u) ->
    reset_token u = None ->
    users_step c us (us ++ [u]).

(** ** Sample data *)

Module Sample.

Definition config : Config := mkConfig "https://app.example" "/dashboard".

Definition isEmail (s : string) : bool :=
  negb (Js.indexOf s "@" =? -1).

Definition credential (password : string) : option string :=
  if (String.length password <? 4)%nat then None
  else Some ("pbkdf2$" +:+ password).

Definition env (t : Z) (tok : string) : Env := mkEnv t tok None.

Definition post (e password tok : string) : Request :=
  mkRequest Js.VOther Js.VOther "/reset-password"
            (Js.VString e) (Js.VString password) (Js.VString tok) true "en".

Definition get (return_to : string) : Request :=
  mkRequest (Js.VString return_to) Js.VOther "/login"
            Js.VOther Js.VOther Js.VOther false "en".

Definition fresh (us : list User) : State :=
  mkState None None None NoResponse [] [] us [].

(** An account whose reset token was issued at instant 0. *)
Definition alice : User :=
  mkUser "a@x.com" "admin" "Alice" "pbkdf2$old-password"
         (Some "tok-1") (Some (Moment.add_minutes 0 30)) None.

Definition bob : User :=
  mkUser "b@x.com" "user" "Bob" "pbkdf2$bob-password" None None None.

End Sample.

(** ** The remaining handlers *)

(** An error as the [catch] of [login] inspects it: [err.name] and
    [err.message]. *)
Record ErrorObject := mkErrorObject {
  error_name : option string;
  error_message : option string
}.

(** What [passport.authenticate('local', callback)] hands to the
    callback: an error; the authenticated document, with its
    [last_locale]; or [false] with an optional [info]. *)
Inductive Authenticated :=
| auth_err (err : ErrorObject)
| auth_user (user : User) (last_locale : option string)
| auth_fail (info : option ErrorObject).

(** How [login] ends: the promise resolves; the [catch] throws
    [Boom.badRequest(ctx.req.t(err.message))]; or it throws again what
    was rejected, an error object or the UNKNOWN_ERROR message. *)
Inductive LoginCompletion :=
| login_resolved
| login_badRequest (phrase : string)
| login_rethrown (err : ErrorObject)
| login_unknown_error.

(** [ctx.locale = l]. *)
Definition set_locale (l : string) (rq : Request) : Request :=
  mkRequest (query_return_to rq) (query_redirect_to rq) (pathWithoutLocale rq)
            (body_email rq) (body_password rq) (params_token rq)
            (accepts_json rq) l.

(** Truthiness of an optional string. *)
Definition truthy_field (f : option string) : bool :=
  match f with
  | Some s => Js.truthy s
  | None => false
  end.

(** Lines 104-107, on the hour that [moment().format('HH')] shows. *)
Definition greeting (HH : Z) : string :=
  if (12 <=? HH) && (HH <=? 17) then "Good afternoon"
  else if 17 <=? HH then "Good evening"
  else "Good morning".

(** The [catch] of [login], lines 134-143. *)
Definition login_catch (err : ErrorObject) : LoginCompletion :=
  if truthy_field (error_name err) && truthy_field (error_message err)
  then match error_message err with
       | Some m => login_badRequest m
       | None => login_rethrown err
       end
  else login_rethrown err.

(** Lines 81-85: the locale of the request becomes the last locale of the
    user when that one is not blank and differs. *)
Definition adopt_last_locale (last_locale : option string) (rq : Request)
  : Request :=
  match last_locale with
  | Some l =>
      if negb (Js.isBlank l) && negb (String.eqb l (locale rq))
      then set_locale l rq else rq
  | None => rq
  end.

Section Session.

Variable config : Config.

(** [sanitizeHtml] without allowed tags or attributes. *)
Variable sanitize : string -> string.

(** [config.appName] and [config.pkg.description]. *)
Variable appName : string.
Variable description : string.

Definition logout (rq : Request) (st : State) : Completion * State :=
  let st := set_session_user None st in
  let st := ctx_flash (flash_custom "Logged out!"
                         (err_message "You have logged out.")) st in
  (Returned, ctx_redirect ("/" +:+ locale rq) st).




(** [login], with the hour of the clock and what passport hands to the
    callback.  The request is returned too, since [login] assigns
    [ctx.locale]. *)
Definition login (HH : Z) (auth : Authenticated) (rq : Request) (st : State)
  : LoginCompletion * Request * State :=
  match auth with
  | auth_err err => (login_catch err, rq, st)
  | auth_user user last_locale =>
      let rq := adopt_last_locale last_locale rq in
      let '(redirectTo, st) := take_redirectTo config rq st in
      let st := ctx_login user st in
      let text := greeting HH +:+ " " +:+ display_name user +:+ "." in
      let st := ctx_flash (flash_custom "Welcome!" (err_message text)) st in
      let st := if accepts_json rq
                then set_response (Body_redirectTo redirectTo) st
                else ctx_redirect redirectTo st in
      (login_resolved, rq, st)
  | auth_fail info =>
      let '(redirectTo, st) := take_redirectTo config rq st in
      match info with
      | Some err => (login_catch err, rq, st)
      | None => (login_unknown_error, rq, st)
      end
  end.

End Session.

(** * Theory *)

(** ** Strings *)

Lemma prefix_BeginsWith (t s : string) :
  String.prefix t s = true <-> Js.BeginsWith s t.
Proof.
  revert s. induction t as [|c t IH]; intros s.
  - split; [intros _; exists s; reflexivity | destruct s; reflexivity].
  - destruct s as [|d s]; simpl.
    + split; [discriminate | intros [b Hb]; discriminate].
    + destruct (Ascii.ascii_dec c d) as [->|Hne].
      * rewrite IH. split; intros [b Hb]; exists b.
        -- simpl. now rewrite Hb.
        -- simpl in Hb. now inversion Hb.
      * split; [discriminate | intros [b Hb]; simpl in Hb; inversion Hb; congruence].
Qed.

Lemma indexOfFrom_range (t s : string) (i : Z) :
  Js.indexOfFrom t s i = -1 \/ i <= Js.indexOfFrom t s i.
Proof.
  revert i. induction s as [|c s IH]; intros i; cbn [Js.indexOfFrom].
  - destruct (String.prefix t ""); [right; lia | now left].
  - destruct (String.prefix t (String c s)); [right; lia |].
    destruct (IH (i + 1)) as [H|H]; [now left | right; lia].
Qed.

Lemma Contains_cons (c : ascii) (s t : string) :
  Js.Contains (String c s) t <-> Js.BeginsWith (String c s) t \/ Js.Contains s t.
Proof.
  split.
  - intros [[|a0 a] [b Hb]].
    + left. now exists b.
    + right. exists a, b. simpl in Hb. now inversion Hb.
  - intros [[b Hb] | [a [b Hb]]].
    + now exists "", b.
    + exists (String c a), b. simpl. now rewrite Hb.
Qed.

Lemma Contains_empty (t : string) :
  Js.Contains "" t <-> Js.BeginsWith "" t.
Proof.
  split.
  - intros [[|a0 a] [b Hb]]; [now exists b | discriminate].
  - intros [b Hb]. now exists "", b.
Qed.

Lemma indexOf_start (s t : string) :
  Js.indexOf s t = 0 <-> Js.BeginsWith s t.
Proof.
  rewrite <- prefix_BeginsWith. unfold Js.indexOf.
  destruct s as [|c s]; cbn [Js.indexOfFrom];
    destruct (String.prefix t _); split; try congruence; try lia.
  pose proof (indexOfFrom_range t s (0 + 1)). lia.
Qed.

Lemma indexOfFrom_present (t s : string) (i : Z) :
  0 <= i -> Js.indexOfFrom t s i <> -1 <-> Js.Contains s t.
Proof.
  revert i. induction s as [|c s IH]; intros i Hi.
  - rewrite Contains_empty, <- prefix_BeginsWith. cbn [Js.indexOfFrom].
    destruct (String.prefix t ""); split; try congruence; try lia.
  - rewrite Contains_cons, <- prefix_BeginsWith.
    cbn [Js.indexOfFrom].
    destruct (String.prefix t (String c s)).
    + split; [tauto | lia].
    + rewrite (IH (i + 1)) by lia. intuition congruence.
Qed.

Lemma indexOf_present (s t : string) :
  Js.indexOf s t <> -1 <-> Js.Contains s t.
Proof. apply indexOfFrom_present. lia. Qed.

Lemma Contains_truthy (s t : string) :
  Js.truthy t = true -> Js.Contains s t -> Js.truthy s = true.
Proof.
  intros Ht [a [b ->]]. destruct a; [destruct t; [discriminate|] |]; reflexivity.
Qed.

(** ** Collections *)

Lemma findOneFrom_Some (q : User -> bool) (us : list User) (k i : nat) (u : User) :
  findOneFrom q us k = Some (i, u) ->
  exists j : nat,
    i = (k + j)%nat /\ us !! j = Some u /\ q u = true
    /\ forall (j' : nat) (v : User), (j' < j)%nat -> us !! j' = Some v -> q v = false.
Proof.
  revert k. induction us as [|w us IH]; intros k; cbn [findOneFrom]; [discriminate|].
  destruct (q w) eqn:Hq.
  - intros [= <- <-]. exists 0%nat. repeat split; [lia | assumption | lia].
  - intros H. destruct (IH _ H) as (j & -> & Hj & Hu & Hfirst).
    exists (S j). repeat split; [lia | assumption | assumption |].
    intros [|j'] v Hlt; cbn; [now intros [= <-] | apply Hfirst; lia].
Qed.

Lemma findOne_Some (q : User -> bool) (us : list User) (i : nat) (u : User) :
  findOne q us = Some (i, u) ->
  us !! i = Some u /\ q u = true
  /\ forall (j : nat) (v : User), (j < i)%nat -> us !! j = Some v -> q v = false.
Proof.
  intros H. destruct (findOneFrom_Some _ _ _ _ _ H) as (j & -> & ? & ? & ?).
  now repeat split.
Qed.

Lemma findOneFrom_None (q : User -> bool) (us : list User) (k : nat) :
  findOneFrom q us k = None <-> forall u : User, u ∈ us -> q u = false.
Proof.
  revert k. induction us as [|w us IH]; intros k; cbn [findOneFrom].
  - split; [intros _ u Hu; inversion Hu | reflexivity].
  - destruct (q w) eqn:Hq.
    + split; [discriminate | intros H; rewrite H in Hq; [discriminate | left]].
    + rewrite IH. split.
      * intros H u Hu. inversion Hu; subst; [assumption | now apply H].
      * intros H u Hu. apply H. now right.
Qed.

Lemma findOne_None (q : User -> bool) (us : list User) :
  findOne q us = None <-> forall u : User, u ∈ us -> q u = false.
Proof. apply findOneFrom_None. Qed.

Lemma findOne_lt (q : User -> bool) (us : list User) (i : nat) (u : User) :
  findOne q us = Some (i, u) -> (i < length us)%nat.
Proof.
  intros H. apply findOne_Some in H as [H _]. now apply lookup_lt_Some in H.
Qed.

(** ** registerOrLogin *)

Lemma take_return_to_query (rq : Request) (st : State) (r : string) :
  query_return_to rq = Js.VString r -> Js.isBlank r = false ->
  session_returnTo (take_return_to rq st) = Some r.
Proof.
  intros Hq Hb. unfold take_return_to, nonblank_of. now rewrite Hq, Hb.
Qed.

Lemma take_return_to_logger (rq : Request) (st : State) :
  logger (take_return_to rq st) = logger st.
Proof.
  unfold take_return_to.
  destruct (nonblank_of (query_return_to rq)); [reflexivity|].
  destruct (nonblank_of (query_redirect_to rq)); reflexivity.
Qed.

Lemma hijacking_true (config : Config) (r : string) :
  hijacking config (Some r) = true <->
  Js.Contains r "://" /\ ~ Js.BeginsWith r (urls_web config).
Proof.
  unfold hijacking. rewrite !andb_true_iff, !negb_true_iff, !Z.eqb_neq.
  rewrite <- indexOf_start, indexOf_present. split.
  - tauto.
  - intros [Hc Hb]. repeat split; [|assumption|assumption].
    now apply (Contains_truthy r "://").
Qed.

Lemma hijacking_false (config : Config) (r : string) :
  hijacking config (Some r) = false <->
  ~ Js.Contains r "://" \/ Js.BeginsWith r (urls_web config).
Proof.
  rewrite <- not_true_iff_false, hijacking_true.
  rewrite <- indexOf_present, <- indexOf_start.
  destruct (Z.eq_dec (Js.indexOf r "://") (-1));
    destruct (Z.eq_dec (Js.indexOf r (urls_web config)) 0); tauto.
Qed.

(** C2.  Open-redirect guard: whatever string [r] the session holds as
    [returnTo] when the guard of [registerOrLogin] runs, (1) if [r]
    contains ["://"] and does not begin with the trusted origin, the
    handler replaces it by null and logs one warning that carries [r];
    (2) if [r] does not contain ["://"], it is kept and nothing is logged;
    (3) if [r] begins with the trusted origin, it is kept and nothing is
    logged. *)
Theorem open_redirect_guard (config : Config) (rq : Request) (st : State)
    (r : string) :
  session_returnTo (take_return_to rq st) = Some r ->
  let st' := snd (registerOrLogin config rq st) in
  (Js.Contains r "://" -> ~ Js.BeginsWith r (urls_web config) ->
     session_returnTo st' = None
     /\ logger st' =
        logger st ++ [log_warn ("Prevented abuse with returnTo hijacking to " +:+ r)])
  /\ (~ Js.Contains r "://" ->
        session_returnTo st' = Some r /\ logger st' = logger st)
  /\ (Js.BeginsWith r (urls_web config) ->
        session_returnTo st' = Some r /\ logger st' = logger st).
Proof.
  intros Hr st'. subst st'.
  unfold registerOrLogin, prevent_open_redirect. cbn [snd]. rewrite Hr.
  pose proof (take_return_to_logger rq st) as Hlog.
  destruct (hijacking config (Some r)) eqn:Hh.
  - apply hijacking_true in Hh as [Hc Hb]. cbn. rewrite Hlog.
    repeat split; tauto.
  - apply hijacking_false in Hh. cbn. rewrite Hr, Hlog.
    assert (Keep : Some r = Some r /\ logger st = logger st) by now split.
    repeat split; try tauto.
Qed.

(** The three requests of the specification's scenario, against the
    trusted origin [https://app.example]. *)
Lemma open_redirect_guard_witness :
  (let st' := snd (registerOrLogin Sample.config
                     (Sample.get "https://evil.example/x") (Sample.fresh [])) in
   session_returnTo st' = None
   /\ logger st' =
      [log_warn "Prevented abuse with returnTo hijacking to https://evil.example/x"])
  /\ (let st' := snd (registerOrLogin Sample.config
                        (Sample.get "/dashboard") (Sample.fresh [])) in
      session_returnTo st' = Some "/dashboard" /\ logger st' = [])
  /\ (let st' := snd (registerOrLogin Sample.config
                        (Sample.get "https://app.example/x") (Sample.fresh [])) in
      session_returnTo st' = Some "https://app.example/x" /\ logger st' = []).
Proof.
  split; [|split].
  - refine (proj1 (open_redirect_guard Sample.config
                      (Sample.get "https://evil.example/x") (Sample.fresh [])
                      "https://evil.example/x" eq_refl) _ _).
    + exists "https", "evil.example/x". reflexivity.
    + intros H. apply indexOf_start in H. vm_compute in H. discriminate.
  - refine (proj1 (proj2 (open_redirect_guard Sample.config
                      (Sample.get "/dashboard") (Sample.fresh [])
                      "/dashboard" eq_refl)) _).
    intros H. apply indexOf_present in H. apply H. reflexivity.
  - refine (proj2 (proj2 (open_redirect_guard Sample.config
                      (Sample.get "https://app.example/x") (Sample.fresh [])
                      "https://app.example/x" eq_refl)) _).
    exists "/x". reflexivity.
Defined.

(** ** What the handlers do to the collections *)

Lemma Users_reset_sent (rq : Request) (st : State) :
  Users (reset_sent rq st) = Users st.
Proof. unfold reset_sent. now destruct (accepts_json rq). Qed.

Lemma Jobs_reset_sent (rq : Request) (st : State) :
  Jobs (reset_sent rq st) = Jobs st.
Proof. unfold reset_sent. now destruct (accepts_json rq). Qed.

Lemma Users_Jobs_create (env : Env) (what : string) (j : Job) (st : State) :
  Users (Jobs_create env what j st) = Users st.
Proof. unfold Jobs_create. now destruct (jobs_failure env). Qed.

Lemma Users_reset_finally (rq : Request) (i : nat) (u : User) (st : State) :
  Users (reset_finally rq i u st) = <[i:=u]> (Users st).
Proof. unfold reset_finally. now destruct (accepts_json rq). Qed.

Lemma session_user_reset_finally (rq : Request) (i : nat) (u : User) (st : State) :
  session_user (reset_finally rq i u st) = Some u.
Proof. unfold reset_finally. now destruct (accepts_json rq). Qed.

Lemma existsb_q_email_false (e : string) (us : list User) :
  existsb (q_email e) us = false -> forall v : User, v ∈ us -> email v <> e.
Proof.
  intros H v Hv Heq.
  assert (existsb (q_email e) us = true); [|congruence].
  apply existsb_exists. exists v. split.
  - now apply list_elem_of_In.
  - unfold q_email. now apply String.eqb_eq.
Qed.

Section Steps.

Variable config : Config.
Variable isEmail : string -> bool.
Variable credential : string -> option string.

Lemma setPassword_fields (u u' : User) (password : string) :
  setPassword credential u password = Some u' ->
  email u' = email u /\ group u' = group u
  /\ reset_token u' = reset_token u
  /\ reset_token_expires_at u' = reset_token_expires_at u.
Proof.
  unfold setPassword. destruct (credential password); [|discriminate].
  now intros [= <-].
Qed.

Lemma registerOrLogin_Users (rq : Request) (st : State) :
  Users (snd (registerOrLogin config rq st)) = Users st.
Proof.
  unfold registerOrLogin, prevent_open_redirect, take_return_to. cbn [snd].
  destruct (nonblank_of (query_return_to rq)) as [r|];
    [|destruct (nonblank_of (query_redirect_to rq)) as [r|]].
  1,2: cbn [session_returnTo set_returnTo];
    now destruct (hijacking config (Some r)).
  destruct (session_returnTo st) as [r|]; [|reflexivity].
  now destruct (hijacking config (Some r)).
Qed.

Lemma register_Users (env : Env) (rq : Request) (st : State) :
  users_step (call_register env rq) (Users st)
             (Users (snd (register config isEmail credential env rq st))).
Proof.
  unfold register.
  destruct (email_of isEmail (body_email rq)) as [e|]; [|constructor].
  destruct (nonblank_of (body_password rq)) as [password|]; [|constructor].
  unfold registerAsync.
  destruct (existsb (q_email e) (Users st)) eqn:He; [constructor|].
  destruct (setPassword _ _ _) as [u|] eqn:Hu; [|constructor].
  apply setPassword_fields in Hu as (Hemail & _ & Htok & _). cbn in Hemail, Htok.
  replace (Users (snd _)) with (Users st ++ [u]).
  - apply users_create; [|assumption].
    rewrite Hemail. now apply existsb_q_email_false.
  - unfold take_redirectTo. cbn.
    destruct (session_returnTo st) as [r|]; [destruct (Js.truthy r)|];
      destruct (accepts_json rq); cbn; now rewrite Users_Jobs_create.
Qed.

Lemma forgotPassword_Users (env : Env) (rq : Request) (st : State) :
  users_step (call_forgotPassword env rq) (Users st)
             (Users (snd (forgotPassword config isEmail env rq st))).
Proof.
  unfold forgotPassword.
  destruct (email_of isEmail (body_email rq)) as [e|]; [|constructor].
  destruct (findOne (q_email e) (Users st)) as [[i u]|] eqn:Hf.
  - destruct (reset_limit (now env) u); [constructor|].
    cbn [snd]. rewrite Users_Jobs_create, Users_reset_sent. cbn.
    apply findOne_Some in Hf as (Hi & _).
    eapply users_save; eauto. right. now exists (randomstring_token env).
  - cbn [snd]. rewrite Users_reset_sent. constructor.
Qed.

Lemma resetPassword_Users (env : Env) (rq : Request) (st : State) :
  users_step (call_resetPassword env rq) (Users st)
             (Users (snd (resetPassword isEmail credential env rq st))).
Proof.
  unfold resetPassword.
  destruct (email_of isEmail (body_email rq)) as [e|]; [|constructor].
  destruct (nonblank_of (body_password rq)) as [password|]; [|constructor].
  destruct (nonblank_of (params_token rq)) as [token|]; [|constructor].
  destruct (findOne _ _) as [[i u]|] eqn:Hf; [|constructor].
  apply findOne_Some in Hf as (Hi & _).
  destruct (setPassword _ _ _) as [u'|] eqn:Hu; cbn [snd];
    rewrite Users_reset_finally.
  - apply setPassword_fields in Hu as (? & ? & ? & _).
    eapply users_save; eauto.
  - eapply users_save; eauto.
Qed.

Lemma run_Users (c : Call) (st : State) :
  users_step c (Users st) (Users (snd (run config isEmail credential c st))).
Proof.
  destruct c; cbn [run].
  - rewrite registerOrLogin_Users. constructor.
  - apply register_Users.
  - apply forgotPassword_Users.
  - apply resetPassword_Users.
Qed.

End Steps.

(** ** Invariants of histories *)

Lemma users_step_lookup (c : Call) (us us' : list User) (i : nat) (u : User) :
  users_step c us us' -> us !! i = Some u ->
  exists u' : User,
    us' !! i = Some u' /\ email u' = email u /\ group u' = group u.
Proof.
  intros Hstep Hi. destruct Hstep as [|j v v' Hj He Hg _|v _ _].
  - now exists u.
  - destruct (decide (j = i)) as [->|Hne].
    + exists v'. rewrite list_lookup_insert_eq by now apply lookup_lt_Some in Hj.
      replace u with v by congruence. now repeat split.
    + exists u. now rewrite list_lookup_insert_ne.
  - exists u. now rewrite lookup_app_l by now apply lookup_lt_Some in Hi.
Qed.

Lemma users_step_emails (c : Call) (us us' : list User) :
  users_step c us us' ->
  email <$> us' = email <$> us
  \/ exists u : User, us' = us ++ [u] /\ email u ∉ (email <$> us).
Proof.
  intros [|j v v' Hj He _ _|v Hfresh _].
  - now left.
  - left. rewrite list_fmap_insert, He. apply list_insert_id.
    now rewrite list_lookup_fmap, Hj.
  - right. exists v. split; [reflexivity|].
    intros Hin. apply list_elem_of_fmap in Hin as (w & Hw & Hin).
    now apply (Hfresh w).
Qed.

Lemma users_step_unique (c : Call) (us us' : list User) :
  users_step c us us' -> unique_emails us -> unique_emails us'.
Proof.
  unfold unique_emails. intros Hstep Hnd.
  destruct (users_step_emails _ _ _ Hstep) as [->|(u & -> & Hu)]; [assumption|].
  rewrite fmap_app. apply NoDup_app. repeat split; [assumption| |].
  - intros x Hx Hx'. apply list_elem_of_singleton in Hx'. now subst.
  - apply NoDup_singleton.
Qed.

Lemma users_step_no_token (c : Call) (us us' : list User) (e tok : string) :
  users_step c us us' -> ~ draws tok c -> no_token e tok us -> no_token e tok us'.
Proof.
  intros Hstep Hfresh Hno x Hx He.
  destruct Hstep as [|j v v' Hj _ _ Htok|v _ Htok].
  - now apply Hno.
  - apply list_elem_of_lookup in Hx as [a Ha].
    destruct (decide (j = a)) as [->|Hne].
    + rewrite list_lookup_insert_eq in Ha by now apply lookup_lt_Some in Hj.
      injection Ha as <-.
      destruct Htok as [->|(tok' & -> & Hd)]; [discriminate|].
      intros [= ->]. contradiction.
    + rewrite list_lookup_insert_ne in Ha by assumption.
      apply Hno; [|assumption]. apply list_elem_of_lookup. now exists a.
  - apply elem_of_app in Hx as [Hx|Hx]; [now apply Hno|].
    apply list_elem_of_singleton in Hx as ->. now rewrite Htok.
Qed.

Lemma no_token_findOne (e tok : string) (t : Z) (us : list User) :
  no_token e tok us -> findOne (q_reset e tok t) us = None.
Proof.
  intros Hno. apply findOne_None. intros u Hu. unfold q_reset.
  destruct (String.eqb (email u) e) eqn:He; [|reflexivity].
  apply String.eqb_eq in He. specialize (Hno u Hu He).
  unfold field_is. destruct (reset_token u) as [x|]; [|reflexivity].
  destruct (String.eqb x tok) eqn:Hx; [|reflexivity].
  apply String.eqb_eq in Hx. congruence.
Qed.

Section Invariants.

Variable config : Config.
Variable isEmail : string -> bool.
Variable credential : string -> option string.

Lemma runs_unique (cs : list Call) (st : State) :
  unique_emails (Users st) -> unique_emails (Users (runs config isEmail credential cs st)).
Proof.
  revert st. induction cs as [|c cs IH]; intros st H; [assumption|].
  apply IH. eapply users_step_unique; [apply run_Users | assumption].
Qed.

Lemma runs_no_token (cs : list Call) (st : State) (e tok : string) :
  Forall (fun c => ~ draws tok c) cs ->
  no_token e tok (Users st) -> no_token e tok (Users (runs config isEmail credential cs st)).
Proof.
  revert st. induction cs as [|c cs IH]; intros st Hcs H; [assumption|].
  inversion Hcs; subst. apply IH; [assumption|].
  eapply users_step_no_token; [apply run_Users | assumption | assumption].
Qed.

Lemma runs_lookup (cs : list Call) (st : State) (i : nat) (u : User) :
  Users st !! i = Some u ->
  exists u' : User,
    Users (runs config isEmail credential cs st) !! i = Some u' /\ email u' = email u /\ group u' = group u.
Proof.
  revert st u. induction cs as [|c cs IH]; intros st u H; [now exists u|].
  destruct (users_step_lookup _ _ _ i u (run_Users config isEmail credential c st) H)
    as (u1 & H1 & He1 & Hg1).
  destruct (IH _ _ H1) as (u' & H' & He' & Hg').
  exists u'. repeat split; [assumption | congruence | congruence].
Qed.

End Invariants.

(** ** resetPassword *)

Section ResetPassword.

Variable config : Config.
Variable isEmail : string -> bool.
Variable credential : string -> option string.

(** The account as [resetPassword] saves it when the lookup has found
    [u]. *)
Lemma resetPassword_found (env : Env) (rq : Request) (st : State)
    (e password token : string) (i : nat) (u : User) :
  email_of isEmail (body_email rq) = Some e ->
  nonblank_of (body_password rq) = Some password ->
  nonblank_of (params_token rq) = Some token ->
  findOne (q_reset e token (now env)) (Users st) = Some (i, u) ->
  let cleared := set_reset_at None (set_reset_token None u) in
  resetPassword isEmail credential env rq st =
    match credential password with
    | Some h => (Returned, reset_finally rq i (set_hash h cleared) st)
    | None => (Thrown (badRequest (translate INVALID_PASSWORD_STRENGTH)),
               reset_finally rq i cleared st)
    end.
Proof.
  intros He Hp Ht Hf. unfold resetPassword, setPassword.
  rewrite He, Hp, Ht, Hf. now destruct (credential password).
Qed.

Lemma resetPassword_not_found (env : Env) (rq : Request) (st : State)
    (e password token : string) :
  email_of isEmail (body_email rq) = Some e ->
  nonblank_of (body_password rq) = Some password ->
  nonblank_of (params_token rq) = Some token ->
  findOne (q_reset e token (now env)) (Users st) = None ->
  resetPassword isEmail credential env rq st =
    (Thrown (badRequest (translate INVALID_RESET_PASSWORD)), st).
Proof.
  intros He Hp Ht Hf. unfold resetPassword. now rewrite He, Hp, Ht, Hf.
Qed.

Lemma resetPassword_Returned (env : Env) (rq : Request) (st st' : State)
    (e token : string) :
  email_of isEmail (body_email rq) = Some e ->
  nonblank_of (params_token rq) = Some token ->
  resetPassword isEmail credential env rq st = (Returned, st') ->
  exists (i : nat) (u u' : User),
    findOne (q_reset e token (now env)) (Users st) = Some (i, u)
    /\ Users st' = <[i:=u']> (Users st)
    /\ reset_token u' = None.
Proof.
  intros He Ht. unfold resetPassword. rewrite He, Ht.
  destruct (nonblank_of (body_password rq)) as [password|]; [|discriminate].
  destruct (findOne _ _) as [[i u]|]; [|discriminate].
  destruct (setPassword _ _ _) as [u'|] eqn:Hu; [|discriminate].
  intros [= <-]. exists i, u, u'. rewrite Users_reset_finally.
  apply setPassword_fields in Hu as (_ & _ & Htok & _). now repeat split.
Qed.

Lemma q_reset_email (e tok : string) (t : Z) (u : User) :
  q_reset e tok t u = true -> email u = e.
Proof.
  unfold q_reset. rewrite !andb_true_iff. intros [[H _] _].
  now apply String.eqb_eq.
Qed.

(** After a successful reset under unique emails, nobody holds the
    token under that email. *)
Lemma resetPassword_no_token (env : Env) (rq : Request) (st st' : State)
    (e token : string) :
  unique_emails (Users st) ->
  email_of isEmail (body_email rq) = Some e ->
  nonblank_of (params_token rq) = Some token ->
  resetPassword isEmail credential env rq st = (Returned, st') ->
  no_token e token (Users st').
Proof.
  intros Hnd He Ht Hr.
  destruct (resetPassword_Returned _ _ _ _ _ _ He Ht Hr)
    as (i & u & u' & Hf & -> & Htok).
  apply findOne_Some in Hf as (Hi & Hq & _). apply q_reset_email in Hq.
  intros x Hx Hxe. apply list_elem_of_lookup in Hx as [a Ha].
  destruct (decide (i = a)) as [->|Hne].
  - rewrite list_lookup_insert_eq in Ha by now apply lookup_lt_Some in Hi.
    injection Ha as <-. now rewrite Htok.
  - rewrite list_lookup_insert_ne in Ha by assumption. exfalso. apply Hne.
    apply (NoDup_lookup (email <$> Users st) i a e Hnd);
      rewrite list_lookup_fmap; [rewrite Hi | rewrite Ha]; cbn; congruence.
Qed.

(** C1.  Token single-use: on a collection with unique emails, once
    [resetPassword] has succeeded for an email and a token, every later
    lookup with the same email and the same token finds no account, at any
    instant and after any further requests that do not draw the very same
    token again; a later [resetPassword] with them throws
    INVALID_RESET_PASSWORD and changes nothing. *)
Theorem reset_token_single_use (env : Env) (rq : Request) (st st' : State)
    (e token : string) (cs : list Call) :
  unique_emails (Users st) ->
  email_of isEmail (body_email rq) = Some e ->
  nonblank_of (params_token rq) = Some token ->
  resetPassword isEmail credential env rq st = (Returned, st') ->
  Forall (fun c => ~ draws token c) cs ->
  let later := runs config isEmail credential cs st' in
  (forall t : Z, findOne (q_reset e token t) (Users later) = None)
  /\ (forall (env' : Env) (rq' : Request) (password : string),
        email_of isEmail (body_email rq') = Some e ->
        nonblank_of (body_password rq') = Some password ->
        nonblank_of (params_token rq') = Some token ->
        resetPassword isEmail credential env' rq' later =
          (Thrown (badRequest (translate INVALID_RESET_PASSWORD)), later)).
Proof.
  intros Hnd He Ht Hr Hcs later.
  assert (Hno : no_token e token (Users later)).
  { apply runs_no_token; [assumption|].
    now apply (resetPassword_no_token env rq st). }
  split.
  - intros t. now apply no_token_findOne.
  - intros env' rq' password He' Hp' Ht'.
    apply (resetPassword_not_found env' rq' later e password token); try assumption.
    now apply no_token_findOne.
Qed.

Lemma q_reset_true (e token : string) (t : Z) (u : User) :
  q_reset e token t u = true <->
  email u = e /\ reset_token u = Some token
  /\ exists x : Z, reset_token_expires_at u = Some x /\ t <= x.
Proof.
  unfold q_reset, field_is, field_gte.
  rewrite !andb_true_iff, String.eqb_eq. split.
  - intros [[He Htok] Hexp].
    destruct (reset_token u) as [tok|]; [|discriminate].
    destruct (reset_token_expires_at u) as [x|]; [|discriminate].
    apply String.eqb_eq in Htok as ->. apply Z.leb_le in Hexp. eauto.
  - intros (He & -> & x & -> & Hx). rewrite String.eqb_refl.
    repeat split; [assumption|]. now apply Z.leb_le.
Qed.

(** C5, as amended.  Token expiry: an account matches the lookup of
    [resetPassword] at instant [t] exactly when its email and token are
    the ones given and its expiry is at [t] or later; the boundary instant
    itself still matches.  Hence, when every account under that email and
    token has its expiry strictly before the present, [resetPassword]
    throws INVALID_RESET_PASSWORD and changes nothing. *)
Theorem reset_token_expiry (e token : string) (t : Z) :
  (forall u : User,
      q_reset e token t u = true <->
      email u = e /\ reset_token u = Some token
      /\ exists x : Z, reset_token_expires_at u = Some x /\ t <= x)
  /\ (forall (env : Env) (rq : Request) (st : State) (password : string),
        now env = t ->
        email_of isEmail (body_email rq) = Some e ->
        nonblank_of (body_password rq) = Some password ->
        nonblank_of (params_token rq) = Some token ->
        (forall (u : User) (x : Z),
            u ∈ Users st -> email u = e -> reset_token u = Some token ->
            reset_token_expires_at u = Some x -> x < t) ->
        resetPassword isEmail credential env rq st =
          (Thrown (badRequest (translate INVALID_RESET_PASSWORD)), st)).
Proof.
  split; [apply q_reset_true|].
  intros env rq st password <- He Hp Ht Hexp.
  apply (resetPassword_not_found env rq st e password token); try assumption.
  apply findOne_None. intros u Hu.
  destruct (q_reset e token (now env) u) eqn:Hq; [|reflexivity].
  apply q_reset_true in Hq as (Hue & Htok & x & Hx & Hle).
  specialize (Hexp u x Hu Hue Htok Hx). lia.
Qed.

(** C8.  Always login after reset: when the lookup of [resetPassword]
    finds an account, the handler ends with that account logged in and
    saved, whether the password is accepted (the handler returns, the
    account carries the new credential) or refused (the handler throws
    INVALID_PASSWORD_STRENGTH, the account keeps its old credential). *)
Theorem always_login_after_reset (env : Env) (rq : Request) (st : State)
    (e password token : string) (i : nat) (u : User) :
  email_of isEmail (body_email rq) = Some e ->
  nonblank_of (body_password rq) = Some password ->
  nonblank_of (params_token rq) = Some token ->
  findOne (q_reset e token (now env)) (Users st) = Some (i, u) ->
  let r := resetPassword isEmail credential env rq st in
  exists u' : User,
    session_user (snd r) = Some u'
    /\ Users (snd r) !! i = Some u'
    /\ email u' = email u
    /\ match credential password with
       | Some h => fst r = Returned /\ hash u' = h
       | None =>
           fst r = Thrown (badRequest (translate INVALID_PASSWORD_STRENGTH))
           /\ hash u' = hash u
       end.
Proof.
  intros He Hp Ht Hf r. subst r.
  rewrite (resetPassword_found env rq st e password token i u He Hp Ht Hf).
  pose proof (findOne_lt _ _ _ _ Hf) as Hlt.
  destruct (credential password) as [h|]; eexists; cbn [fst snd];
    rewrite session_user_reset_finally, Users_reset_finally,
      list_lookup_insert_eq by assumption;
    now repeat split.
Qed.

(** C9.  Token clearing survives credential failure: when the lookup of
    [resetPassword] finds an account and the password is refused, the
    handler throws INVALID_PASSWORD_STRENGTH, and the account is saved with
    its reset token cleared and its old credential: no token validates for
    it any more, at any instant. *)
Theorem token_cleared_on_credential_failure (env : Env) (rq : Request)
    (st : State) (e password token : string) (i : nat) (u : User) :
  email_of isEmail (body_email rq) = Some e ->
  nonblank_of (body_password rq) = Some password ->
  nonblank_of (params_token rq) = Some token ->
  findOne (q_reset e token (now env)) (Users st) = Some (i, u) ->
  credential password = None ->
  let r := resetPassword isEmail credential env rq st in
  fst r = Thrown (badRequest (translate INVALID_PASSWORD_STRENGTH))
  /\ exists u' : User,
       Users (snd r) = <[i:=u']> (Users st)
       /\ Users (snd r) !! i = Some u'
       /\ reset_token u' = None
       /\ hash u' = hash u
       /\ forall (e' token' : string) (t : Z), q_reset e' token' t u' = false.
Proof.
  intros He Hp Ht Hf Hc r. subst r.
  rewrite (resetPassword_found env rq st e password token i u He Hp Ht Hf), Hc.
  pose proof (findOne_lt _ _ _ _ Hf) as Hlt.
  split; [reflexivity|]. eexists. cbn [fst snd].
  rewrite Users_reset_finally, list_lookup_insert_eq by assumption.
  repeat split. intros e' token' t. unfold q_reset. cbn.
  now rewrite andb_false_r.
Qed.

End ResetPassword.

(** ** forgotPassword *)

Lemma reset_limit_Some (t w : Z) (u : User) :
  reset_limit t u = Some w <->
  exists (x : Z) (tok : string),
    reset_token_expires_at u = Some x /\ reset_token u = Some tok
    /\ tok <> "" /\ x < t + 30 * 60000 /\ w = x - t.
Proof.
  unfold reset_limit, Moment.isBefore, Moment.add_minutes, Moment.fromNow.
  destruct (reset_token_expires_at u) as [x|], (reset_token u) as [tok|].
  2-4: split; [discriminate | intros (? & ? & ? & ? & _); discriminate].
  destruct (Js.truthy tok && (x <? t + 30 * 60000)) eqn:Hc.
  - apply andb_true_iff in Hc as [Htok Hx]. apply Z.ltb_lt in Hx. split.
    + intros [= <-]. exists x, tok. repeat split; try assumption.
      intros ->. discriminate.
    + intros (? & ? & [= <-] & [= <-] & _ & _ & ->). reflexivity.
  - split; [discriminate|].
    intros (? & ? & [= <-] & [= <-] & Hne & Hx & _).
    apply andb_false_iff in Hc as [Hc|Hc].
    + destruct tok; [contradiction | discriminate].
    + apply Z.ltb_ge in Hc. lia.
Qed.

(** An outstanding token issued at any instant before the present limits
    the request, however long ago that was. *)
Lemma reset_limit_issued_before (t issued : Z) (tok : string) (u : User) :
  reset_token u = Some tok -> tok <> "" ->
  reset_token_expires_at u = Some (Moment.add_minutes issued 30) ->
  issued < t ->
  reset_limit t u = Some (Moment.add_minutes issued 30 - t).
Proof.
  intros Htok Hne Hexp Hlt. apply reset_limit_Some.
  exists (Moment.add_minutes issued 30), tok.
  unfold Moment.add_minutes. repeat split; try assumption; lia.
Qed.

Section ForgotPassword.

Variable config : Config.
Variable isEmail : string -> bool.

Lemma forgotPassword_unknown (env : Env) (rq : Request) (st : State) (e : string) :
  email_of isEmail (body_email rq) = Some e ->
  findOne (q_email e) (Users st) = None ->
  forgotPassword config isEmail env rq st = (Returned, reset_sent rq st).
Proof. intros He Hf. unfold forgotPassword. now rewrite He, Hf. Qed.

Lemma forgotPassword_limited (env : Env) (rq : Request) (st : State)
    (e : string) (i : nat) (u : User) (wait : Z) :
  email_of isEmail (body_email rq) = Some e ->
  findOne (q_email e) (Users st) = Some (i, u) ->
  reset_limit (now env) u = Some wait ->
  forgotPassword config isEmail env rq st =
    (Thrown (badRequest (translate_with PASSWORD_RESET_LIMIT wait)), st).
Proof. intros He Hf Hl. unfold forgotPassword. now rewrite He, Hf, Hl. Qed.

Lemma forgotPassword_issued (env : Env) (rq : Request) (st : State)
    (e : string) (i : nat) (u : User) :
  email_of isEmail (body_email rq) = Some e ->
  findOne (q_email e) (Users st) = Some (i, u) ->
  reset_limit (now env) u = None ->
  let expires_at := Some (Moment.add_minutes (now env) 30) in
  let u' := set_reset_token (Some (randomstring_token env))
              (set_reset_token_expires_at expires_at u) in
  forgotPassword config isEmail env rq st =
    (Returned,
     Jobs_create env "Queued reset password email"
       (mkJob "email" "reset-password" (email u)
          (ResetLocals (display_name u) expires_at
             (urls_web config +:+ "/reset-password/" +:+ randomstring_token env)))
       (reset_sent rq (save i u' st))).
Proof. intros He Hf Hl. unfold forgotPassword. now rewrite He, Hf, Hl. Qed.

(** C10.  [forgotPassword] throws PASSWORD_RESET_LIMIT only for an
    account on which both [reset_token] and [reset_token_expires_at] are
    set.  For an account whose [reset_token] is null, whatever its
    [reset_token_expires_at], [forgotPassword] does not throw: it returns,
    and the account is saved with the token just drawn and an expiry thirty
    minutes ahead. *)
Theorem forgotPassword_after_reset :
  (forall (env : Env) (rq : Request) (st : State) (wait : Z),
      fst (forgotPassword config isEmail env rq st)
        = Thrown (badRequest (translate_with PASSWORD_RESET_LIMIT wait)) ->
      exists (e : string) (i : nat) (u : User),
        email_of isEmail (body_email rq) = Some e
        /\ findOne (q_email e) (Users st) = Some (i, u)
        /\ is_Some (reset_token u) /\ is_Some (reset_token_expires_at u))
  /\ (forall (env : Env) (rq : Request) (st : State) (e : string) (i : nat)
             (u : User),
        email_of isEmail (body_email rq) = Some e ->
        findOne (q_email e) (Users st) = Some (i, u) ->
        reset_token u = None ->
        let r := forgotPassword config isEmail env rq st in
        fst r = Returned
        /\ exists u' : User,
             Users (snd r) !! i = Some u'
             /\ reset_token u' = Some (randomstring_token env)
             /\ reset_token_expires_at u' =
                Some (Moment.add_minutes (now env) 30)).
Proof.
  split.
  - intros env rq st wait. unfold forgotPassword.
    destruct (email_of isEmail (body_email rq)) as [e|] eqn:He; [|discriminate].
    destruct (findOne (q_email e) (Users st)) as [[i u]|] eqn:Hf; [|discriminate].
    destruct (reset_limit (now env) u) as [w|] eqn:Hl; [|discriminate].
    intros _. exists e, i, u.
    apply reset_limit_Some in Hl as (x & tok & -> & -> & _).
    repeat split; try assumption; eexists; reflexivity.
  - intros env rq st e i u He Hf Htok r. subst r.
    assert (Hl : reset_limit (now env) u = None).
    { unfold reset_limit. rewrite Htok. now destruct (reset_token_expires_at u). }
    rewrite (forgotPassword_issued env rq st e i u He Hf Hl).
    split; [reflexivity|]. eexists. cbn [snd].
    rewrite Users_Jobs_create, Users_reset_sent. cbn [save Users set_Users].
    rewrite list_lookup_insert_eq by (eapply findOne_lt; eassumption).
    now repeat split.
Qed.

End ForgotPassword.

(** ** register *)

Section Register.

Variable config : Config.
Variable isEmail : string -> bool.
Variable credential : string -> option string.

Lemma take_redirectTo_snd (rq : Request) (st : State) :
  Users (snd (take_redirectTo config rq st)) = Users st
  /\ session_user (snd (take_redirectTo config rq st)) = session_user st.
Proof.
  unfold take_redirectTo.
  destruct (session_returnTo st) as [r|]; [destruct (Js.truthy r)|]; now split.
Qed.

Lemma register_Returned (env : Env) (rq : Request) (st st' : State) :
  register config isEmail credential env rq st = (Returned, st') ->
  exists (e password h : string),
    email_of isEmail (body_email rq) = Some e
    /\ nonblank_of (body_password rq) = Some password
    /\ credential password = Some h
    /\ let g := if (count (q_group "admin") (Users st) =? 0)%nat
                then "admin" else "user" in
       let u := mkUser e g "" h None None None in
       Users st' = Users st ++ [u] /\ session_user st' = Some u.
Proof.
  unfold register.
  destruct (email_of isEmail (body_email rq)) as [e|]; [|discriminate].
  destruct (nonblank_of (body_password rq)) as [password|]; [|discriminate].
  unfold registerAsync, setPassword.
  destruct (existsb (q_email e) (Users st)); [discriminate|].
  destruct (credential password) as [h|] eqn:Hc; [|discriminate].
  match goal with
  | |- context [take_redirectTo config rq ?s] =>
      pose proof (take_redirectTo_snd rq s) as [HU HS];
      destruct (take_redirectTo config rq s) as [redirectTo st1]
  end.
  cbn in HU, HS. intros [= <-]. exists e, password, h.
  repeat split; unfold Jobs_create;
    destruct (accepts_json rq); destruct (jobs_failure env); cbn;
    assumption || reflexivity.
Qed.

(** C3.  First-admin role assignment: whenever [register] succeeds, the
    collection gains exactly one account, under the email of the request,
    whose group is ["admin"] exactly when no account of group ["admin"]
    was counted and ["user"] exactly when one was; and after any further
    requests the account at that position still has the group it was
    created with. *)
Theorem first_admin_role (env : Env) (rq : Request) (st st' : State) :
  register config isEmail credential env rq st = (Returned, st') ->
  exists u : User,
    Users st' = Users st ++ [u]
    /\ email_of isEmail (body_email rq) = Some (email u)
    /\ (group u = "admin" <-> count (q_group "admin") (Users st) = 0%nat)
    /\ (group u = "user" <-> count (q_group "admin") (Users st) <> 0%nat)
    /\ forall cs : list Call,
         exists u' : User,
           Users (runs config isEmail credential cs st') !! length (Users st)
             = Some u'
           /\ group u' = group u.
Proof.
  intros H.
  apply register_Returned in H as (e & password & h & He & _ & _ & Hu & _).
  cbv zeta in Hu.
  set (u := mkUser e _ "" h None None None) in Hu.
  exists u. split; [exact Hu|]. split; [exact He|].
  assert (Hfixed : forall cs : list Call,
             exists u' : User,
               Users (runs config isEmail credential cs st') !! length (Users st)
                 = Some u'
               /\ group u' = group u).
  { intros cs.
    destruct (runs_lookup config isEmail credential cs st' (length (Users st)) u)
      as (u' & H1 & _ & H3).
    - rewrite Hu. now rewrite lookup_app_r, Nat.sub_diag by lia.
    - now exists u'. }
  subst u. cbn [group] in *.
  destruct (Nat.eqb_spec (count (q_group "admin") (Users st)) 0) as [Hz|Hz].
  - split; [tauto|]. split; [split; [discriminate | contradiction]|assumption].
  - split; [split; [discriminate | contradiction]|]. split; [tauto|assumption].
Qed.

End Register.

(** * The properties on sample requests *)

Lemma reset_token_single_use_witness :
  let st := Sample.fresh [Sample.alice; Sample.bob] in
  let rq := Sample.post "a@x.com" "pw123" "tok-1" in
  let st' := snd (resetPassword Sample.isEmail Sample.credential
                    (Sample.env 600000 "-") rq st) in
  let later := runs Sample.config Sample.isEmail Sample.credential
                 [call_forgotPassword (Sample.env 7200000 "tok-2") rq] st' in
  (forall t : Z, findOne (q_reset "a@x.com" "tok-1" t) (Users later) = None)
  /\ (forall (env' : Env) (rq' : Request) (password : string),
        email_of Sample.isEmail (body_email rq') = Some "a@x.com" ->
        nonblank_of (body_password rq') = Some password ->
        nonblank_of (params_token rq') = Some "tok-1" ->
        resetPassword Sample.isEmail Sample.credential env' rq' later =
          (Thrown (badRequest (translate INVALID_RESET_PASSWORD)), later)).
Proof.
  intros st rq st' later.
  refine (reset_token_single_use Sample.config Sample.isEmail Sample.credential
            (Sample.env 600000 "-") rq st st' "a@x.com" "tok-1"
            [call_forgotPassword (Sample.env 7200000 "tok-2") rq] _ _ _ _ _).
  - apply (bool_decide_unpack _). vm_compute. exact I.
  - reflexivity.
  - reflexivity.
  - vm_compute. reflexivity.
  - repeat constructor. cbn. discriminate.
Defined.

Lemma first_admin_role_witness :
  let rq := Sample.post "a@x.com" "pw123" "" in
  let st' := snd (register Sample.config Sample.isEmail Sample.credential
                    (Sample.env 0 "-") rq (Sample.fresh [])) in
  exists u : User,
    Users st' = [] ++ [u]
    /\ email_of Sample.isEmail (body_email rq) = Some (email u)
    /\ (group u = "admin" <-> count (q_group "admin") [] = 0%nat)
    /\ (group u = "user" <-> count (q_group "admin") [] <> 0%nat)
    /\ forall cs : list Call,
         exists u' : User,
           Users (runs Sample.config Sample.isEmail Sample.credential cs st')
             !! length (@nil User) = Some u'
           /\ group u' = group u.
Proof.
  intros rq st'.
  refine (first_admin_role Sample.config Sample.isEmail Sample.credential
            (Sample.env 0 "-") rq (Sample.fresh []) st' _).
  vm_compute. reflexivity.
Defined.

(** The scenario of the specification: the first registration, on an
    empty collection, creates an admin, logs it in and queues one welcome
    email. *)
Example register_first_account :
  let r := register Sample.config Sample.isEmail Sample.credential
             (Sample.env 0 "-") (Sample.post "a@x.com" "pw123" "")
             (Sample.fresh []) in
  let u := mkUser "a@x.com" "admin" "" "pbkdf2$pw123" None None None in
  fst r = Returned
  /\ Users (snd r) = [u]
  /\ session_user (snd r) = Some u
  /\ Jobs (snd r) = [mkJob "email" "welcome" "a@x.com" (WelcomeLocals u)].
Proof. vm_compute. repeat split. Qed.

(** The second registration creates a plain user. *)
Example register_second_account :
  let r := register Sample.config Sample.isEmail Sample.credential
             (Sample.env 0 "-") (Sample.post "c@x.com" "pw123" "")
             (Sample.fresh [Sample.alice]) in
  fst r = Returned
  /\ Users (snd r) =
     [Sample.alice; mkUser "c@x.com" "user" "" "pbkdf2$pw123" None None None].
Proof. vm_compute. repeat split. Qed.

Lemma reset_token_expiry_witness :
  resetPassword Sample.isEmail Sample.credential (Sample.env 1800001 "-")
    (Sample.post "a@x.com" "pw123" "tok-1") (Sample.fresh [Sample.alice]) =
  (Thrown (badRequest (translate INVALID_RESET_PASSWORD)),
   Sample.fresh [Sample.alice]).
Proof.
  refine (proj2 (reset_token_expiry Sample.isEmail Sample.credential
                   "a@x.com" "tok-1" 1800001)
            (Sample.env 1800001 "-") (Sample.post "a@x.com" "pw123" "tok-1")
            (Sample.fresh [Sample.alice]) "pw123"
            eq_refl eq_refl eq_refl eq_refl _).
  intros u x Hu _ _ Hx. apply list_elem_of_singleton in Hu. subst u.
  injection Hx as <-. vm_compute. reflexivity.
Defined.

(** At the very instant of expiry the token of [alice] is still accepted,
    against the claim that the lookup fails whenever
    [now >= resetTokenExpiresAt]. *)
Lemma reset_token_expiry_counterexample :
  let t := 1800000 in
  reset_token_expires_at Sample.alice = Some t
  /\ t >= t
  /\ findOne (q_reset "a@x.com" "tok-1" t) [Sample.alice]
     = Some (0%nat, Sample.alice)
  /\ fst (resetPassword Sample.isEmail Sample.credential (Sample.env t "-")
            (Sample.post "a@x.com" "pw123" "tok-1")
            (Sample.fresh [Sample.alice]))
     <> Thrown (badRequest (translate INVALID_RESET_PASSWORD)).
Proof.
  cbv zeta. split; [reflexivity|]. split; [lia|]. split; [reflexivity|].
  vm_compute. discriminate.
Qed.

Lemma always_login_after_reset_witness :
  let st := Sample.fresh [Sample.alice; Sample.bob] in
  let r := resetPassword Sample.isEmail Sample.credential
             (Sample.env 600000 "-") (Sample.post "a@x.com" "abc" "tok-1") st in
  exists u' : User,
    session_user (snd r) = Some u'
    /\ Users (snd r) !! 0%nat = Some u'
    /\ email u' = email Sample.alice
    /\ match Sample.credential "abc" with
       | Some h => fst r = Returned /\ hash u' = h
       | None =>
           fst r = Thrown (badRequest (translate INVALID_PASSWORD_STRENGTH))
           /\ hash u' = hash Sample.alice
       end.
Proof.
  exact (always_login_after_reset Sample.isEmail Sample.credential
           (Sample.env 600000 "-") (Sample.post "a@x.com" "abc" "tok-1")
           (Sample.fresh [Sample.alice; Sample.bob])
           "a@x.com" "abc" "tok-1" 0%nat Sample.alice
           eq_refl eq_refl eq_refl eq_refl).
Defined.

Lemma token_cleared_on_credential_failure_witness :
  let st := Sample.fresh [Sample.bob; Sample.alice] in
  let r := resetPassword Sample.isEmail Sample.credential
             (Sample.env 900000 "-") (Sample.post "a@x.com" "x1" "tok-1") st in
  Sample.credential "x1" = None
  /\ fst r = Thrown (badRequest (translate INVALID_PASSWORD_STRENGTH))
  /\ exists u' : User,
       Users (snd r) = <[1%nat:=u']> (Users st)
       /\ Users (snd r) !! 1%nat = Some u'
       /\ reset_token u' = None
       /\ hash u' = hash Sample.alice
       /\ forall (e' token' : string) (t : Z), q_reset e' token' t u' = false.
Proof.
  split; [reflexivity|].
  exact (token_cleared_on_credential_failure Sample.isEmail Sample.credential
           (Sample.env 900000 "-") (Sample.post "a@x.com" "x1" "tok-1")
           (Sample.fresh [Sample.bob; Sample.alice])
           "a@x.com" "x1" "tok-1" 1%nat Sample.alice
           eq_refl eq_refl eq_refl eq_refl eq_refl).
Defined.

Lemma forgotPassword_after_reset_witness :
  (let env := Sample.env 660000 "tok-2" in
   let rq := Sample.post "a@x.com" "" "" in
   exists (e : string) (i : nat) (u : User),
     email_of Sample.isEmail (body_email rq) = Some e
     /\ findOne (q_email e) [Sample.alice] = Some (i, u)
     /\ is_Some (reset_token u) /\ is_Some (reset_token_expires_at u))
  /\ (let consumed := set_reset_at None (set_reset_token None Sample.alice) in
      let env := Sample.env 660000 "tok-2" in
      let r := forgotPassword Sample.config Sample.isEmail env
                 (Sample.post "a@x.com" "" "") (Sample.fresh [consumed]) in
      reset_token_expires_at consumed = Some 1800000
      /\ fst r = Returned
      /\ exists u' : User,
           Users (snd r) !! 0%nat = Some u'
           /\ reset_token u' = Some "tok-2"
           /\ reset_token_expires_at u' = Some (Moment.add_minutes 660000 30)).
Proof.
  split.
  - exact (proj1 (forgotPassword_after_reset Sample.config Sample.isEmail)
             (Sample.env 660000 "tok-2") (Sample.post "a@x.com" "" "")
             (Sample.fresh [Sample.alice]) 1140000 eq_refl).
  - split; [reflexivity|].
    exact (proj2 (forgotPassword_after_reset Sample.config Sample.isEmail)
             (Sample.env 660000 "tok-2") (Sample.post "a@x.com" "" "")
             (Sample.fresh [set_reset_at None (set_reset_token None Sample.alice)])
             "a@x.com" 0%nat
             (set_reset_at None (set_reset_token None Sample.alice))
             eq_refl eq_refl eq_refl).
Defined.

(** ** Where the code departs from its documentation *)

(** Within thirty minutes of an issuance the request is limited, and the
    wait it reports is positive. *)
Lemma reset_limit_within_cooldown (t issued : Z) (tok : string) (u : User) :
  reset_token u = Some tok -> tok <> "" ->
  reset_token_expires_at u = Some (Moment.add_minutes issued 30) ->
  issued < t < Moment.add_minutes issued 30 ->
  exists wait : Z, reset_limit t u = Some wait /\ 0 < wait.
Proof.
  intros Htok Hne Hexp [Hlo Hhi]. eexists. split.
  - now apply (reset_limit_issued_before t issued tok).
  - lia.
Qed.

(** A request in the same millisecond as the issuance is not limited. *)
Lemma reset_limit_same_instant (issued : Z) (u : User) :
  reset_token_expires_at u = Some (Moment.add_minutes issued 30) ->
  reset_limit issued u = None.
Proof.
  intros Hexp. unfold reset_limit, Moment.isBefore. rewrite Hexp.
  destruct (reset_token u) as [tok|]; [|reflexivity].
  rewrite Z.ltb_irrefl. now rewrite andb_false_r.
Qed.

(** An issuance leaves both token fields set. *)
Lemma forgotPassword_paired (config : Config) (isEmail : string -> bool)
    (env : Env) (rq : Request) (st : State) (e : string) (i : nat) (u : User) :
  email_of isEmail (body_email rq) = Some e ->
  findOne (q_email e) (Users st) = Some (i, u) ->
  reset_limit (now env) u = None ->
  exists u' : User,
    Users (snd (forgotPassword config isEmail env rq st)) !! i = Some u'
    /\ paired u'.
Proof.
  intros He Hf Hl. rewrite (forgotPassword_issued config isEmail env rq st e i u He Hf Hl).
  eexists. cbn [snd]. rewrite Users_Jobs_create, Users_reset_sent.
  cbn [save Users set_Users].
  rewrite list_lookup_insert_eq by (eapply findOne_lt; eassumption).
  split; [reflexivity|]. right. split; discriminate.
Qed.

(** For an unknown email the response is the one of a successful
    issuance and no job is queued. *)
Lemma forgotPassword_unknown_email (config : Config) (isEmail : string -> bool)
    (env : Env) (rq : Request) (st : State) (e : string) :
  email_of isEmail (body_email rq) = Some e ->
  findOne (q_email e) (Users st) = None ->
  let r := forgotPassword config isEmail env rq st in
  fst r = Returned
  /\ response (snd r) = response (reset_sent rq st)
  /\ flashes (snd r) = flashes (reset_sent rq st)
  /\ Jobs (snd r) = Jobs st
  /\ Users (snd r) = Users st.
Proof.
  intros He Hf. cbv zeta. rewrite (forgotPassword_unknown config isEmail env rq st e He Hf).
  cbn [fst snd]. rewrite Jobs_reset_sent, Users_reset_sent. now repeat split.
Qed.

(** For a known email that is not limited the response is the same. *)
Lemma forgotPassword_known_email (config : Config) (isEmail : string -> bool)
    (env : Env) (rq : Request) (st : State) (e : string) (i : nat) (u : User) :
  email_of isEmail (body_email rq) = Some e ->
  findOne (q_email e) (Users st) = Some (i, u) ->
  reset_limit (now env) u = None ->
  let r := forgotPassword config isEmail env rq st in
  fst r = Returned
  /\ response (snd r) = response (reset_sent rq st)
  /\ flashes (snd r) = flashes (reset_sent rq st).
Proof.
  intros He Hf Hl. cbv zeta.
  rewrite (forgotPassword_issued config isEmail env rq st e i u He Hf Hl).
  cbn [fst snd]. unfold Jobs_create, reset_sent.
  destruct (jobs_failure env), (accepts_json rq); now repeat split.
Qed.

(** C4.  Thirty-one minutes after a token was issued to [alice], with
    the cooldown of the specification over, [forgotPassword] still throws
    PASSWORD_RESET_LIMIT; the wait it reports is negative ("a minute
    ago") and the old token is not replaced. *)
Theorem forgotPassword_limit_outlasts_cooldown :
  let st := Sample.fresh [Sample.alice] in
  let t := Moment.add_minutes 0 31 in
  ~ spec_within_cooldown t Sample.alice
  /\ forgotPassword Sample.config Sample.isEmail (Sample.env t "tok-2")
       (Sample.post "a@x.com" "" "") st
     = (Thrown (badRequest (translate_with PASSWORD_RESET_LIMIT (-60000))), st).
Proof.
  cbv zeta. split; [|vm_compute; reflexivity].
  intros (x & Hx & Hlt). injection Hx as <-. vm_compute in Hlt. discriminate.
Qed.

(** C6.  After a successful [resetPassword] the account of [alice] has
    its [reset_token] cleared and its [reset_token_expires_at] still set:
    the handler clears [reset_at] instead. *)
Theorem resetPassword_leaves_expiry :
  let r := resetPassword Sample.isEmail Sample.credential
             (Sample.env 600000 "-") (Sample.post "a@x.com" "pw123" "tok-1")
             (Sample.fresh [Sample.alice]) in
  paired Sample.alice
  /\ fst r = Returned
  /\ exists u' : User,
       Users (snd r) = [u']
       /\ reset_token u' = None
       /\ reset_token_expires_at u' = Some 1800000
       /\ ~ paired u'.
Proof.
  cbv zeta. split; [right; split; discriminate|]. split; [reflexivity|].
  eexists. split; [vm_compute; reflexivity|].
  split; [reflexivity|]. split; [reflexivity|].
  intros [[_ H]|[H _]]; [discriminate H | now apply H].
Qed.

(** C7.  Two hours after a token was issued to [alice], outside any
    cooldown, [forgotPassword] answers her email with
    PASSWORD_RESET_LIMIT and an unknown email with PASSWORD_RESET_SENT:
    the two responses differ.  For the unknown email no job is queued. *)
Theorem forgotPassword_reveals_stale_account :
  let st := Sample.fresh [Sample.alice] in
  let t := Moment.add_minutes 0 120 in
  let known := forgotPassword Sample.config Sample.isEmail (Sample.env t "tok-2")
                 (Sample.post "a@x.com" "" "") st in
  let unknown := forgotPassword Sample.config Sample.isEmail (Sample.env t "tok-2")
                   (Sample.post "ghost@x.com" "" "") st in
  ~ spec_within_cooldown t Sample.alice
  /\ fst known
     = Thrown (badRequest (translate_with PASSWORD_RESET_LIMIT (-5400000)))
  /\ fst unknown = Returned
  /\ response (snd unknown) = Body_message (translate PASSWORD_RESET_SENT)
  /\ Jobs (snd unknown) = [].
Proof.
  cbv zeta. split; [|vm_compute; repeat split].
  intros (x & Hx & Hlt). injection Hx as <-. vm_compute in Hlt. discriminate.
Qed.

(** * Further properties of the controller *)

(** ** The pending redirect *)

Lemma registerOrLogin_returnTo (config : Config) (rq : Request) (st : State) :
  session_returnTo (snd (registerOrLogin config rq st)) =
  if hijacking config (session_returnTo (take_return_to rq st)) then None
  else session_returnTo (take_return_to rq st).
Proof.
  unfold registerOrLogin, prevent_open_redirect. cbn [snd].
  destruct (session_returnTo (take_return_to rq st)) as [r|] eqn:Hr;
    [|cbn; now rewrite Hr].
  destruct (hijacking config (Some r)); cbn; [reflexivity | now rewrite Hr].
Qed.

Lemma take_redirectTo_target (config : Config) (rq : Request) (st : State) :
  let r := take_redirectTo config rq st in
  (fst r = "/" +:+ locale rq +:+ successReturnToOrRedirect config
   \/ session_returnTo st = Some (fst r))
  /\ (session_returnTo (snd r) = None \/ session_returnTo (snd r) = Some "").
Proof.
  unfold take_redirectTo.
  destruct (session_returnTo st) as [x|] eqn:Hx; [|cbn; split; now left].
  destruct x as [|c x]; cbn.
  - split; [now left | now right].
  - split; [now right | now left].
Qed.

(** X1.  Whatever the request and the session before it, the session
    holds no hijacking [returnTo] after [registerOrLogin]: a string left
    there contains no ["://"] or begins with the trusted origin. *)
Theorem registerOrLogin_leaves_safe_returnTo (config : Config) (rq : Request)
    (st : State) (r : string) :
  session_returnTo (snd (registerOrLogin config rq st)) = Some r ->
  ~ Js.Contains r "://" \/ Js.BeginsWith r (urls_web config).
Proof.
  rewrite registerOrLogin_returnTo.
  destruct (hijacking config _) eqn:Hh; [discriminate|].
  intros Hr. rewrite Hr in Hh. now apply hijacking_false.
Qed.

Lemma registerOrLogin_leaves_safe_returnTo_witness :
  ~ Js.Contains "/dashboard" "://"
  \/ Js.BeginsWith "/dashboard" (urls_web Sample.config).
Proof.
  exact (registerOrLogin_leaves_safe_returnTo Sample.config
           (Sample.get "   ")
           (set_returnTo (Some "/dashboard") (Sample.fresh []))
           "/dashboard" eq_refl).
Defined.

(** X2.  Which string becomes the pending redirect: a [return_to] that
    is a non-blank string wins over [redirect_to] and over the session; a
    [redirect_to] counts only when [return_to] is missing or blank; when
    neither counts, the session keeps what it had.  In each case the
    outcome is that string if it is safe, and null if it is not. *)
Theorem registerOrLogin_return_to_precedence (config : Config) (rq : Request)
    (st : State) :
  let st' := snd (registerOrLogin config rq st) in
  let outcome (r : string) :=
    (~ Js.Contains r "://" \/ Js.BeginsWith r (urls_web config) ->
       session_returnTo st' = Some r)
    /\ (Js.Contains r "://" /\ ~ Js.BeginsWith r (urls_web config) ->
          session_returnTo st' = None) in
  (forall r : string,
      query_return_to rq = Js.VString r -> Js.isBlank r = false -> outcome r)
  /\ (forall r : string,
        nonblank_of (query_return_to rq) = None ->
        query_redirect_to rq = Js.VString r -> Js.isBlank r = false ->
        outcome r)
  /\ (nonblank_of (query_return_to rq) = None ->
      nonblank_of (query_redirect_to rq) = None ->
      (session_returnTo st = None -> session_returnTo st' = None)
      /\ forall r : string, session_returnTo st = Some r -> outcome r).
Proof.
  intros st' outcome.
  assert (Hout : forall r : string,
             session_returnTo (take_return_to rq st) = Some r -> outcome r).
  { intros r Hr. unfold outcome, st'. rewrite registerOrLogin_returnTo, Hr.
    split; intros H.
    - apply hijacking_false in H. now rewrite H.
    - apply hijacking_true in H. now rewrite H. }
  split; [|split].
  - intros r Hq Hb. apply Hout. now apply take_return_to_query.
  - intros r Hn Hq Hb. apply Hout. unfold take_return_to.
    rewrite Hn. unfold nonblank_of at 1. now rewrite Hq, Hb.
  - intros Hn1 Hn2.
    assert (Hsame : take_return_to rq st = st).
    { unfold take_return_to. now rewrite Hn1, Hn2. }
    split.
    + intros Hnone. unfold st'. rewrite registerOrLogin_returnTo, Hsame, Hnone.
      reflexivity.
    + intros r Hr. apply Hout. now rewrite Hsame.
Qed.

Lemma registerOrLogin_return_to_precedence_witness :
  (session_returnTo
     (snd (registerOrLogin Sample.config
             (mkRequest (Js.VString "/a") (Js.VString "/b") "/login"
                        Js.VOther Js.VOther Js.VOther false "en")
             (set_returnTo (Some "/c") (Sample.fresh [])))) = Some "/a")
  /\ (session_returnTo
        (snd (registerOrLogin Sample.config
                (mkRequest (Js.VString "  ") (Js.VString "/b") "/login"
                           Js.VOther Js.VOther Js.VOther false "en")
                (set_returnTo (Some "/c") (Sample.fresh [])))) = Some "/b")
  /\ (session_returnTo
        (snd (registerOrLogin Sample.config
                (mkRequest (Js.VString "  ") Js.VOther "/login"
                           Js.VOther Js.VOther Js.VOther false "en")
                (set_returnTo (Some "/c") (Sample.fresh [])))) = Some "/c").
Proof.
  split; [|split].
  - refine (proj1 (proj1 (registerOrLogin_return_to_precedence Sample.config
                            (mkRequest (Js.VString "/a") (Js.VString "/b") "/login"
                               Js.VOther Js.VOther Js.VOther false "en")
                            (set_returnTo (Some "/c") (Sample.fresh [])))
                     "/a" eq_refl eq_refl) _).
    left. intros H. apply indexOf_present in H. apply H. reflexivity.
  - refine (proj1 (proj1 (proj2 (registerOrLogin_return_to_precedence Sample.config
                            (mkRequest (Js.VString "  ") (Js.VString "/b") "/login"
                               Js.VOther Js.VOther Js.VOther false "en")
                            (set_returnTo (Some "/c") (Sample.fresh []))))
                     "/b" eq_refl eq_refl eq_refl) _).
    left. intros H. apply indexOf_present in H. apply H. reflexivity.
  - refine (proj1 (proj2 (proj2 (proj2 (registerOrLogin_return_to_precedence
                            Sample.config
                            (mkRequest (Js.VString "  ") Js.VOther "/login"
                               Js.VOther Js.VOther Js.VOther false "en")
                            (set_returnTo (Some "/c") (Sample.fresh []))))
                     eq_refl eq_refl) "/c" eq_refl) _).
    left. intros H. apply indexOf_present in H. apply H. reflexivity.
Defined.

(** ** register, in full *)

Lemma take_redirectTo_frame (config : Config) (rq : Request) (st : State) :
  let st' := snd (take_redirectTo config rq st) in
  session_user st' = session_user st /\ response st' = response st
  /\ flashes st' = flashes st /\ logger st' = logger st
  /\ Users st' = Users st /\ Jobs st' = Jobs st /\ state_verb st' = state_verb st.
Proof.
  unfold take_redirectTo.
  destruct (session_returnTo st) as [r|]; [destruct (Js.truthy r)|];
    now repeat split.
Qed.

Lemma take_redirectTo_session (config : Config) (rq : Request) (st st0 : State) :
  session_returnTo st0 = session_returnTo st ->
  fst (take_redirectTo config rq st0) = fst (take_redirectTo config rq st)
  /\ session_returnTo (snd (take_redirectTo config rq st0))
     = session_returnTo (snd (take_redirectTo config rq st)).
Proof.
  intros H. unfold take_redirectTo. rewrite H.
  destruct (session_returnTo st) as [r|] eqn:E; [destruct (Js.truthy r)|];
    cbn; split; congruence.
Qed.

Section RegisterInFull.

Variable config : Config.
Variable isEmail : string -> bool.
Variable credential : string -> option string.

(** The state a successful [register] ends in. *)
Lemma register_success (env : Env) (rq : Request) (st st' : State) :
  register config isEmail credential env rq st = (Returned, st') ->
  exists (e password h : string),
    email_of isEmail (body_email rq) = Some e
    /\ nonblank_of (body_password rq) = Some password
    /\ credential password = Some h
    /\ existsb (q_email e) (Users st) = false
    /\ let g := if (count (q_group "admin") (Users st) =? 0)%nat
                then "admin" else "user" in
       let u := mkUser e g "" h None None None in
       let r := take_redirectTo config rq
                  (ctx_login u (set_Users (Users st ++ [u]) st)) in
       let st1 := ctx_flash (flash_custom "Thanks!" (translate REGISTERED))
                    (snd r) in
       let st2 := if accepts_json rq
                  then set_response (Body_redirectTo (fst r)) st1
                  else ctx_redirect (fst r) st1 in
       st' = Jobs_create env "queued welcome email"
               (mkJob "email" "welcome" e (WelcomeLocals u)) st2.
Proof.
  unfold register.
  destruct (email_of isEmail (body_email rq)) as [e|] eqn:He; [|discriminate].
  destruct (nonblank_of (body_password rq)) as [password|] eqn:Hp; [|discriminate].
  unfold registerAsync, setPassword.
  destruct (existsb (q_email e) (Users st)) eqn:Hex; [discriminate|].
  destruct (credential password) as [h|] eqn:Hc; [|discriminate].
  unfold set_hash.
  cbn [email group display_name hash reset_token reset_token_expires_at
       reset_at].
  destruct (take_redirectTo config rq _) as [redirectTo st1] eqn:Ht.
  intros [= <-]. exists e, password, h. repeat split; try assumption.
  cbv zeta. now rewrite Ht.
Qed.

End RegisterInFull.

Lemma findOneFrom_intro (q : User -> bool) (us : list User) (k i : nat) (u : User) :
  us !! i = Some u -> q u = true ->
  (forall (j : nat) (v : User), (j < i)%nat -> us !! j = Some v -> q v = false) ->
  findOneFrom q us k = Some ((k + i)%nat, u).
Proof.
  revert k i. induction us as [|w us IH]; intros k i Hi Hq Hfirst; [discriminate|].
  cbn [findOneFrom]. destruct i as [|i].
  - cbn in Hi. injection Hi as ->. rewrite Hq. now rewrite Nat.add_0_r.
  - rewrite (Hfirst 0%nat w) by (lia || reflexivity).
    rewrite (IH (S k) i); [f_equal; f_equal; lia | exact Hi | exact Hq |].
    intros j v Hj Hv. apply (Hfirst (S j) v); [lia | exact Hv].
Qed.

Lemma findOne_intro (q : User -> bool) (us : list User) (i : nat) (u : User) :
  us !! i = Some u -> q u = true ->
  (forall (j : nat) (v : User), (j < i)%nat -> us !! j = Some v -> q v = false) ->
  findOne q us = Some (i, u).
Proof. intros. unfold findOne. now rewrite (findOneFrom_intro q us 0 i u). Qed.

(** The lookup after the document it found has been saved back. *)
Lemma findOne_saved (q q' : User -> bool) (us : list User) (i : nat) (u u' : User) :
  findOne q us = Some (i, u) ->
  q' u' = true ->
  (forall v : User, q v = false -> q' v = false) ->
  findOne q' (<[i:=u']> us) = Some (i, u').
Proof.
  intros Hf Hq' Hsub. pose proof (findOne_lt _ _ _ _ Hf) as Hlt.
  apply findOne_Some in Hf as (Hi & _ & Hfirst).
  apply findOne_intro.
  - now apply list_lookup_insert_eq.
  - exact Hq'.
  - intros j v Hj Hv. rewrite list_lookup_insert_ne in Hv by lia.
    apply Hsub. now apply (Hfirst j).
Qed.

Lemma q_reset_needs_email (e tok : string) (t : Z) (v : User) :
  q_email e v = false -> q_reset e tok t v = false.
Proof. unfold q_email, q_reset. now intros ->. Qed.

Lemma response_Jobs_create (env : Env) (what : string) (j : Job) (st : State) :
  response (Jobs_create env what j st) = response st
  /\ flashes (Jobs_create env what j st) = flashes st
  /\ session_user (Jobs_create env what j st) = session_user st
  /\ session_returnTo (Jobs_create env what j st) = session_returnTo st.
Proof. unfold Jobs_create. now destruct (jobs_failure env). Qed.

Section RegisterProperties.

Variable config : Config.
Variable isEmail : string -> bool.
Variable credential : string -> option string.

(** What a successful [register] leaves, field by field. *)
Lemma register_success_fields (env : Env) (rq : Request) (st st' : State) :
  register config isEmail credential env rq st = (Returned, st') ->
  exists u : User,
    let r := take_redirectTo config rq
               (ctx_login u (set_Users (Users st ++ [u]) st)) in
    let job := mkJob "email" "welcome" (email u) (WelcomeLocals u) in
    email_of isEmail (body_email rq) = Some (email u)
    /\ reset_token u = None /\ reset_token_expires_at u = None
    /\ Users st' = Users st ++ [u]
    /\ session_user st' = Some u
    /\ session_returnTo st' = session_returnTo (snd r)
    /\ response st' = (if accepts_json rq then Body_redirectTo (fst r)
                       else Redirect (fst r))
    /\ flashes st' =
       flashes st ++ [flash_custom "Thanks!" (translate REGISTERED)]
    /\ match jobs_failure env with
       | None => Jobs st' = Jobs st ++ [job]
                 /\ logger st' = logger st ++ [log_debug "queued welcome email" job]
       | Some err => Jobs st' = Jobs st
                     /\ logger st' = logger st ++ [log_error err]
       end.
Proof.
  intros H. apply register_success in H
    as (e & password & h & He & _ & _ & _ & ->).
  cbv zeta.
  exists (mkUser e (if (count (q_group "admin") (Users st) =? 0)%nat
                    then "admin" else "user") "" h None None None).
  cbn [email reset_token reset_token_expires_at].
  split; [exact He|]. split; [reflexivity|]. split; [reflexivity|].
  match goal with
  | |- context [take_redirectTo config rq ?s] =>
      pose proof (take_redirectTo_frame config rq s) as (HS & HR & HF & HL & HU & HJ & _);
      destruct (take_redirectTo config rq s) as [target st1]
  end.
  cbn [fst snd] in *. unfold Jobs_create.
  destruct (accepts_json rq), (jobs_failure env); cbn;
    rewrite ?HS, ?HF, ?HL, ?HU, ?HJ; repeat split.
Qed.

(** X3.  The redirect that ends a successful [register] on a session
    prepared by [registerOrLogin] goes to the default destination of the
    locale, or to a string that contains no ["://"] or begins with the
    trusted origin: never to a foreign absolute URL taken from the
    query. *)
Theorem register_redirect_is_safe (env : Env) (rq1 rq2 : Request)
    (st st2 : State) :
  register config isEmail credential env rq2
    (snd (registerOrLogin config rq1 st)) = (Returned, st2) ->
  exists target : string,
    response st2 = (if accepts_json rq2 then Body_redirectTo target
                    else Redirect target)
    /\ (target = "/" +:+ locale rq2 +:+ successReturnToOrRedirect config
        \/ ~ Js.Contains target "://"
        \/ Js.BeginsWith target (urls_web config)).
Proof.
  intros H. apply register_success_fields in H
    as (u & _ & _ & _ & _ & _ & _ & Hresp & _).
  cbv zeta in Hresp. eexists. split; [exact Hresp|].
  match goal with
  | |- context [take_redirectTo config rq2 ?s] =>
      destruct (proj1 (take_redirectTo_target config rq2 s)) as [Hd|Hs];
      [now left | right]
  end.
  cbn [session_returnTo ctx_login set_session_user set_Users] in Hs.
  rewrite registerOrLogin_returnTo in Hs.
  destruct (hijacking config _) eqn:Hh; [discriminate|].
  rewrite Hs in Hh. now apply hijacking_false.
Qed.

(** X5.  A successful [register] logs the caller in as the account it
    has just created, which carries no reset token; it uses up the pending
    redirect, so that no non-empty [returnTo] stays in the session; and it
    flashes REGISTERED once. *)
Theorem register_logs_in_new_account (env : Env) (rq : Request)
    (st st' : State) :
  register config isEmail credential env rq st = (Returned, st') ->
  exists u : User,
    last (Users st') = Some u
    /\ session_user st' = Some u
    /\ reset_token u = None /\ reset_token_expires_at u = None
    /\ (session_returnTo st' = None \/ session_returnTo st' = Some "")
    /\ flashes st' =
       flashes st ++ [flash_custom "Thanks!" (translate REGISTERED)].
Proof.
  intros H. apply register_success_fields in H
    as (u & _ & Htok & Hexp & HU & HS & HR & _ & HF & _).
  exists u. rewrite HU, last_snoc, HR.
  split; [reflexivity|]. split; [assumption|]. split; [assumption|].
  split; [assumption|]. split; [|assumption].
  match goal with
  | |- context [take_redirectTo config rq ?s] =>
      exact (proj2 (take_redirectTo_target config rq s))
  end.
Qed.

(** X6.  The welcome email is best effort.  Whatever [Jobs.create]
    does, [register] ends the same way with the same accounts, session,
    response and flashes; when a registration succeeds, either exactly one
    welcome job for the new account is queued, or the queue is left as it
    was and the error is logged. *)
Theorem register_welcome_job_best_effort :
  (forall (env1 env2 : Env) (rq : Request) (st : State),
      let r1 := register config isEmail credential env1 rq st in
      let r2 := register config isEmail credential env2 rq st in
      fst r1 = fst r2
      /\ Users (snd r1) = Users (snd r2)
      /\ session_user (snd r1) = session_user (snd r2)
      /\ session_returnTo (snd r1) = session_returnTo (snd r2)
      /\ response (snd r1) = response (snd r2)
      /\ flashes (snd r1) = flashes (snd r2))
  /\ (forall (env : Env) (rq : Request) (st st' : State),
        register config isEmail credential env rq st = (Returned, st') ->
        exists u : User,
          session_user st' = Some u
          /\ match jobs_failure env with
             | None =>
                 Jobs st' = Jobs st ++
                   [mkJob "email" "welcome" (email u) (WelcomeLocals u)]
             | Some err =>
                 Jobs st' = Jobs st
                 /\ logger st' = logger st ++ [log_error err]
             end).
Proof.
  split.
  - intros env1 env2 rq st. cbv zeta. unfold register.
    destruct (email_of isEmail (body_email rq)) as [e|]; [|now repeat split].
    destruct (nonblank_of (body_password rq)) as [password|]; [|now repeat split].
    destruct (registerAsync _ _ _ _ _) as [err|[u us]]; [now repeat split|].
    destruct (take_redirectTo config rq _) as [target st1].
    unfold Jobs_create.
    destruct (accepts_json rq), (jobs_failure env1), (jobs_failure env2);
      now repeat split.
  - intros env rq st st' H. apply register_success_fields in H
      as (u & _ & _ & _ & _ & HS & _ & _ & _ & HJ).
    exists u. split; [assumption|].
    cbv zeta in HJ. destruct (jobs_failure env); tauto.
Qed.

End RegisterProperties.

(** ** Requests that are turned down *)

Section Rejections.

Variable config : Config.
Variable isEmail : string -> bool.
Variable credential : string -> option string.


End Rejections.

(** ** forgotPassword, in full *)

Section ForgotPasswordProperties.

Variable config : Config.
Variable isEmail : string -> bool.

(** X7.  The emailed link and the stored token agree.  When
    [forgotPassword] returns, either no job was queued, or exactly one
    was: a reset-password email to the address of an account of the
    collection whose stored [reset_token] is the token at the end of the
    link and whose stored expiry is the one the email announces.  No job
    is queued for an email that matches no account. *)
Theorem forgotPassword_link_matches_token (env : Env) (rq : Request)
    (st st' : State) :
  forgotPassword config isEmail env rq st = (Returned, st') ->
  (Jobs st' = Jobs st
   /\ ((forall e : string, email_of isEmail (body_email rq) = Some e ->
          findOne (q_email e) (Users st) = None)
       \/ jobs_failure env <> None))
  \/ exists (i : nat) (u' : User) (tok : string),
       Users st' !! i = Some u'
       /\ reset_token u' = Some tok
       /\ Jobs st' = Jobs st ++
            [mkJob "email" "reset-password" (email u')
               (ResetLocals (display_name u') (reset_token_expires_at u')
                  (urls_web config +:+ "/reset-password/" +:+ tok))].
Proof.
  unfold forgotPassword.
  destruct (email_of isEmail (body_email rq)) as [e|]; [|discriminate].
  destruct (findOne (q_email e) (Users st)) as [[i u]|] eqn:Hf.
  - destruct (reset_limit (now env) u); [discriminate|].
    intros [= <-]. pose proof (findOne_lt _ _ _ _ Hf) as Hlt.
    unfold Jobs_create. destruct (jobs_failure env) as [err|] eqn:Hj.
    + left. cbn. rewrite Jobs_reset_sent. split; [reflexivity | now right].
    + right. eexists i, _, (randomstring_token env). cbn.
      rewrite Users_reset_sent, Jobs_reset_sent. cbn.
      rewrite list_lookup_insert_eq by assumption.
      split; [reflexivity|]. split; reflexivity.
  - intros [= <-]. left. rewrite Jobs_reset_sent. split; [reflexivity|].
    left. intros e' He'. congruence.
Qed.

(** X8.  Asking for a reset never touches a credential.  After any call
    of [forgotPassword] the collection has the same length, and the
    account at each position keeps its email, group, display name and
    password hash; an account under another email than the one of the
    request is left exactly as it was. *)
Theorem forgotPassword_keeps_credentials (env : Env) (rq : Request)
    (st : State) (j : nat) (u : User) :
  Users st !! j = Some u ->
  let st' := snd (forgotPassword config isEmail env rq st) in
  length (Users st') = length (Users st)
  /\ exists u' : User,
       Users st' !! j = Some u'
       /\ email u' = email u /\ group u' = group u
       /\ display_name u' = display_name u /\ hash u' = hash u
       /\ (email_of isEmail (body_email rq) <> Some (email u) -> u' = u).
Proof.
  intros Hj. cbv zeta. unfold forgotPassword.
  destruct (email_of isEmail (body_email rq)) as [e|];
    [|split; [reflexivity | exists u; now repeat split]].
  destruct (findOne (q_email e) (Users st)) as [[i v]|] eqn:Hf.
  - destruct (reset_limit (now env) v);
      [split; [reflexivity | exists u; now repeat split]|].
    cbn [snd]. rewrite Users_Jobs_create, Users_reset_sent.
    cbn [save Users set_Users]. rewrite length_insert. split; [reflexivity|].
    apply findOne_Some in Hf as (Hi & Hq & _).
    destruct (decide (i = j)) as [->|Hne].
    + rewrite list_lookup_insert_eq by now apply lookup_lt_Some in Hi.
      replace v with u in * by congruence.
      eexists. split; [reflexivity|]. repeat split.
      intros Hdiff. exfalso. apply Hdiff. f_equal.
      unfold q_email in Hq. apply String.eqb_eq in Hq. congruence.
    + rewrite list_lookup_insert_ne by assumption.
      exists u. now repeat split.
  - cbn [snd]. rewrite Users_reset_sent.
    split; [reflexivity | exists u; now repeat split].
Qed.

End ForgotPasswordProperties.

(** ** The life of a reset token *)

Section TokenLife.

Variable config : Config.
Variable isEmail : string -> bool.
Variable credential : string -> option string.

(** X9.  [resetPassword] touches only an account that presented its
    token.  After any call the collection has the same length; the account
    at each position keeps its email, group, display name and expiry; and
    an account that the lookup of the request does not match is left
    exactly as it was, password hash included. *)
Theorem resetPassword_touches_only_the_match (env : Env) (rq : Request)
    (st : State) (j : nat) (u : User) :
  Users st !! j = Some u ->
  let st' := snd (resetPassword isEmail credential env rq st) in
  length (Users st') = length (Users st)
  /\ exists u' : User,
       Users st' !! j = Some u'
       /\ email u' = email u /\ group u' = group u
       /\ display_name u' = display_name u
       /\ reset_token_expires_at u' = reset_token_expires_at u
       /\ ((forall e token : string,
              email_of isEmail (body_email rq) = Some e ->
              nonblank_of (params_token rq) = Some token ->
              q_reset e token (now env) u = false) ->
           u' = u).
Proof.
  intros Hj. cbv zeta. unfold resetPassword.
  destruct (email_of isEmail (body_email rq)) as [e|];
    [|split; [reflexivity | exists u; now repeat split]].
  destruct (nonblank_of (body_password rq)) as [password|];
    [|split; [reflexivity | exists u; now repeat split]].
  destruct (nonblank_of (params_token rq)) as [token|];
    [|split; [reflexivity | exists u; now repeat split]].
  destruct (findOne _ _) as [[i v]|] eqn:Hf;
    [|split; [reflexivity | exists u; now repeat split]].
  apply findOne_Some in Hf as (Hi & Hq & _).
  assert (Hcase : forall w : User,
             email w = email v -> group w = group v ->
             display_name w = display_name v ->
             reset_token_expires_at w = reset_token_expires_at v ->
             length (<[i:=w]> (Users st)) = length (Users st)
             /\ exists u' : User,
                  <[i:=w]> (Users st) !! j = Some u'
                  /\ email u' = email u /\ group u' = group u
                  /\ display_name u' = display_name u
                  /\ reset_token_expires_at u' = reset_token_expires_at u
                  /\ ((forall e0 token0 : string,
                         Some e = Some e0 -> Some token = Some token0 ->
                         q_reset e0 token0 (now env) u = false) ->
                      u' = u)).
  { intros w H1 H2 H3 H4. rewrite length_insert. split; [reflexivity|].
    destruct (decide (i = j)) as [->|Hne].
    - rewrite list_lookup_insert_eq by now apply lookup_lt_Some in Hi.
      replace v with u in * by congruence.
      exists w. repeat split; try assumption.
      intros Hno. rewrite (Hno e token eq_refl eq_refl) in Hq. discriminate.
    - rewrite list_lookup_insert_ne by assumption. exists u. now repeat split. }
  unfold setPassword. destruct (credential password) as [h|]; cbn [snd];
    rewrite Users_reset_finally; now apply Hcase.
Qed.

(** X10.  Issue, then consume.  When [forgotPassword] issues a token to
    an account (the account exists and is not limited, the token drawn is
    not blank), a [resetPassword] with the same email, that token and an
    acceptable password, at any instant up to thirty minutes after the
    issuance, returns: the account then carries the new credential, has no
    reset token, and is the one logged in. *)
Theorem issue_then_consume (env1 env2 : Env) (rq1 rq2 : Request) (st : State)
    (e password h : string) (i : nat) (u : User) :
  email_of isEmail (body_email rq1) = Some e ->
  findOne (q_email e) (Users st) = Some (i, u) ->
  reset_limit (now env1) u = None ->
  Js.isBlank (randomstring_token env1) = false ->
  email_of isEmail (body_email rq2) = Some e ->
  nonblank_of (body_password rq2) = Some password ->
  params_token rq2 = Js.VString (randomstring_token env1) ->
  credential password = Some h ->
  now env2 <= Moment.add_minutes (now env1) 30 ->
  let st1 := snd (forgotPassword config isEmail env1 rq1 st) in
  let r := resetPassword isEmail credential env2 rq2 st1 in
  fst r = Returned
  /\ exists u' : User,
       Users (snd r) !! i = Some u'
       /\ session_user (snd r) = Some u'
       /\ email u' = e /\ hash u' = h /\ reset_token u' = None.
Proof.
  intros He1 Hf Hl Hb He2 Hp Ht Hc Hnow. cbv zeta.
  rewrite (forgotPassword_issued config isEmail env1 rq1 st e i u He1 Hf Hl).
  cbn [snd].
  set (u1 := set_reset_token _ _). set (st1 := Jobs_create _ _ _ _).
  assert (HU : Users st1 = <[i:=u1]> (Users st)).
  { unfold st1. now rewrite Users_Jobs_create, Users_reset_sent. }
  pose proof (findOne_Some _ _ _ _ Hf) as (Hi & Hq & _).
  assert (Hemail : email u = e).
  { unfold q_email in Hq. now apply String.eqb_eq in Hq. }
  assert (Hf1 : findOne (q_reset e (randomstring_token env1) (now env2))
                  (Users st1) = Some (i, u1)).
  { rewrite HU. apply (findOne_saved (q_email e) _ _ i u u1 Hf).
    - apply q_reset_true. subst u1. cbn. repeat split; [assumption|].
      eexists. split; [reflexivity | assumption].
    - intros v. apply q_reset_needs_email. }
  assert (Ht' : nonblank_of (params_token rq2) = Some (randomstring_token env1)).
  { unfold nonblank_of. now rewrite Ht, Hb. }
  rewrite (resetPassword_found isEmail credential env2 rq2 st1 e password
             (randomstring_token env1) i u1 He2 Hp Ht' Hf1), Hc.
  split; [reflexivity|]. eexists. cbn [snd].
  rewrite Users_reset_finally, session_user_reset_finally, HU.
  rewrite list_lookup_insert_eq
    by (rewrite length_insert; now apply lookup_lt_Some in Hi).
  split; [reflexivity|]. split; [reflexivity|]. now repeat split.
Qed.

(** X11.  One token at a time.  Once [forgotPassword] has issued a
    token to an account, every later [forgotPassword] for that email, at
    any instant after the issuance, throws PASSWORD_RESET_LIMIT with the
    distance from that instant to the expiry of the token, and changes
    nothing: the token issued first stays in place. *)
Theorem second_forgotPassword_is_limited (env1 env2 : Env) (rq1 rq2 : Request)
    (st : State) (e : string) (i : nat) (u : User) :
  email_of isEmail (body_email rq1) = Some e ->
  findOne (q_email e) (Users st) = Some (i, u) ->
  reset_limit (now env1) u = None ->
  randomstring_token env1 <> "" ->
  email_of isEmail (body_email rq2) = Some e ->
  now env1 < now env2 ->
  let st1 := snd (forgotPassword config isEmail env1 rq1 st) in
  forgotPassword config isEmail env2 rq2 st1 =
    (Thrown (badRequest
               (translate_with PASSWORD_RESET_LIMIT
                  (Moment.add_minutes (now env1) 30 - now env2))),
     st1).
Proof.
  intros He1 Hf Hl Hne He2 Hnow. cbv zeta.
  rewrite (forgotPassword_issued config isEmail env1 rq1 st e i u He1 Hf Hl).
  cbn [snd].
  set (u1 := set_reset_token _ _). set (st1 := Jobs_create _ _ _ _).
  assert (HU : Users st1 = <[i:=u1]> (Users st)).
  { unfold st1. now rewrite Users_Jobs_create, Users_reset_sent. }
  pose proof (findOne_Some _ _ _ _ Hf) as (Hi & Hq & _).
  assert (Hf1 : findOne (q_email e) (Users st1) = Some (i, u1)).
  { rewrite HU. apply (findOne_saved (q_email e) _ _ i u u1 Hf).
    - exact Hq.
    - now intros v. }
  apply (forgotPassword_limited config isEmail env2 rq2 st1 e i u1); try assumption.
  apply (reset_limit_issued_before (now env2) (now env1)
           (randomstring_token env1)); try assumption; reflexivity.
Qed.

End TokenLife.

Section Standstill.

Variable config : Config.
Variable isEmail : string -> bool.
Variable credential : string -> option string.


(** X13.  No call deletes an account or renames it.  After any
    sequence of calls of [registerOrLogin], [register], [forgotPassword]
    and [resetPassword] the collection is at least as long as before, and
    the account at each position has the email and the group it had. *)
Theorem accounts_are_never_removed (cs : list Call) (st : State) :
  (length (Users st) <= length (Users (runs config isEmail credential cs st)))%nat
  /\ forall (i : nat) (u : User),
       Users st !! i = Some u ->
       exists u' : User,
         Users (runs config isEmail credential cs st) !! i = Some u'
         /\ email u' = email u /\ group u' = group u.
Proof.
  split; [|intros i u; apply runs_lookup].
  destruct (Users st) as [|w us] eqn:HU using rev_ind; [cbn; lia|].
  clear IHus.
  destruct (runs_lookup config isEmail credential cs st (length us) w)
    as (u' & Hu' & _).
  - rewrite HU. now rewrite lookup_app_r, Nat.sub_diag by lia.
  - apply lookup_lt_Some in Hu'. rewrite length_app. cbn. lia.
Qed.

End Standstill.

(** ** login, logout, homeOrDashboard *)

Lemma login_catch_not_resolved (err : ErrorObject) :
  login_catch err <> login_resolved.
Proof.
  unfold login_catch.
  destruct (truthy_field (error_name err) && truthy_field (error_message err));
    [destruct (error_message err)|]; discriminate.
Qed.


Lemma adopt_last_locale_fields (last_locale : option string) (rq : Request) :
  accepts_json (adopt_last_locale last_locale rq) = accepts_json rq
  /\ (forall l : string,
        last_locale = Some l -> Js.isBlank l = false ->
        locale (adopt_last_locale last_locale rq) = l)
  /\ (last_locale = None
      \/ (exists l : string, last_locale = Some l /\ Js.isBlank l = true) ->
      adopt_last_locale last_locale rq = rq).
Proof.
  unfold adopt_last_locale. destruct last_locale as [l|].
  - destruct (Js.isBlank l) eqn:Hb; cbn.
    + split; [reflexivity|]. split; [intros ? [= <-]; congruence | reflexivity].
    + destruct (String.eqb_spec l (locale rq)) as [Heq|Hne]; cbn.
      * split; [reflexivity|]. split; [now intros ? [= <-] _|].
        intros [H|(l' & [= <-] & H)]; congruence.
      * split; [reflexivity|]. split; [now intros ? [= <-] _|].
        intros [H|(l' & [= <-] & H)]; congruence.
  - split; [reflexivity|]. split; [discriminate | reflexivity].
Qed.

Section LoginProperties.

Variable config : Config.

(** X14.  A failed login uses up the pending redirect.  When passport
    reports a failure, [login] does not resolve and leaves the session
    user, the response, the flashes and the collections as they were, but
    no non-empty [returnTo] stays in the session.  When passport reports
    an error instead, nothing at all changes. *)
Theorem failed_login_drops_returnTo (HH : Z) (rq : Request) (st : State) :
  (forall info : option ErrorObject,
      let '(c, rq', st') := login config HH (auth_fail info) rq st in
      c <> login_resolved /\ rq' = rq
      /\ session_user st' = session_user st
      /\ response st' = response st /\ flashes st' = flashes st
      /\ Users st' = Users st /\ Jobs st' = Jobs st
      /\ (session_returnTo st' = None \/ session_returnTo st' = Some ""))
  /\ (forall err : ErrorObject,
        let '(c, rq', st') := login config HH (auth_err err) rq st in
        c <> login_resolved /\ rq' = rq /\ st' = st).
Proof.
  split.
  - intros info. cbn [login].
    pose proof (take_redirectTo_frame config rq st) as (HS & HR & HF & _ & HU & HJ & _).
    pose proof (proj2 (take_redirectTo_target config rq st)) as Hgone.
    destruct (take_redirectTo config rq st) as [target st1]. cbn [snd] in *.
    destruct info as [err|]; repeat split; try assumption;
      [apply login_catch_not_resolved | discriminate].
  - intros err. cbn [login]. repeat split. apply login_catch_not_resolved.
Qed.



(** X17.  The greeting of a successful login: one flash is added,
    titled "Welcome!", whose text is the greeting of the hour, a space,
    the display name of the user and a full stop.  The greeting is "Good
    morning" before 12, "Good afternoon" from 12 to 17 included, and "Good
    evening" after 17. *)
Theorem login_greets_by_hour (HH : Z) (user : User)
    (last_locale : option string) (rq : Request) (st : State) :
  exists g : string,
    flashes (snd (login config HH (auth_user user last_locale) rq st)) =
      flashes st ++
      [flash_custom "Welcome!"
         (err_message (g +:+ " " +:+ display_name user +:+ "."))]
    /\ (HH < 12 -> g = "Good morning")
    /\ (12 <= HH <= 17 -> g = "Good afternoon")
    /\ (17 < HH -> g = "Good evening").
Proof.
  exists (greeting HH). split.
  - cbn [login].
    pose proof (take_redirectTo_frame config (adopt_last_locale last_locale rq) st)
      as (_ & _ & HF & _).
    destruct (take_redirectTo config _ st) as [target st1]. cbn [snd] in *.
    destruct (accepts_json _); cbn; now rewrite HF.
  - unfold greeting. repeat split; intros H.
    + destruct (12 <=? HH) eqn:H1; [apply Z.leb_le in H1; lia|]. cbn.
      destruct (17 <=? HH) eqn:H2; [apply Z.leb_le in H2; lia | reflexivity].
    + destruct H as [H1 H2]. apply Z.leb_le in H1, H2. now rewrite H1, H2.
    + destruct (HH <=? 17) eqn:H1; [apply Z.leb_le in H1; lia|].
      rewrite andb_false_r.
      destruct (17 <=? HH) eqn:H2; [reflexivity | apply Z.leb_gt in H2; lia].
Qed.

(** X18.  The redirect that ends a successful [login] on a session
    prepared by [registerOrLogin] goes to the default destination of the
    locale, or to a string that contains no ["://"] or begins with the
    trusted origin. *)
Theorem login_redirect_is_safe (HH : Z) (user : User)
    (last_locale : option string) (rq1 rq2 : Request) (st : State) :
  let '(c, rq', st') :=
    login config HH (auth_user user last_locale) rq2
      (snd (registerOrLogin config rq1 st)) in
  exists target : string,
    response st' = (if accepts_json rq2 then Body_redirectTo target
                    else Redirect target)
    /\ (target = "/" +:+ locale rq' +:+ successReturnToOrRedirect config
        \/ ~ Js.Contains target "://"
        \/ Js.BeginsWith target (urls_web config)).
Proof.
  cbn [login].
  pose proof (adopt_last_locale_fields last_locale rq2) as (Hj & _).
  set (rq' := adopt_last_locale last_locale rq2) in *.
  set (st1 := snd (registerOrLogin config rq1 st)).
  pose proof (proj1 (take_redirectTo_target config rq' st1)) as Htarget.
  destruct (take_redirectTo config rq' st1) as [target st2]. cbn [fst] in Htarget.
  exists target. rewrite Hj. split; [now destruct (accepts_json rq2)|].
  destruct Htarget as [Hd|Hs]; [now left | right].
  unfold st1 in Hs. rewrite registerOrLogin_returnTo in Hs.
  destruct (hijacking config _) eqn:Hh; [discriminate|].
  rewrite Hs in Hh. now apply hijacking_false.
Qed.

End LoginProperties.

Section HomeProperties.

Variable config : Config.
Variable isEmail : string -> bool.
Variable credential : string -> option string.
Variable sanitize : string -> string.
Variable appName : string.
Variable description : string.


End HomeProperties.

Section SessionIndependence.

Variable config : Config.
Variable isEmail : string -> bool.
Variable credential : string -> option string.

(** X20.  The reset flows do not look at the session.  On two states
    with the same Users collection, whatever their session users, pending
    redirects, responses, flashes, logs and job queues, [forgotPassword]
    and [resetPassword] end the same way and leave the same Users
    collection; so their outcome does not depend on whether [login] or
    [logout] came before. *)
Theorem reset_flows_ignore_session (env : Env) (rq : Request) (st1 st2 : State) :
  Users st1 = Users st2 ->
  (fst (forgotPassword config isEmail env rq st1)
   = fst (forgotPassword config isEmail env rq st2)
   /\ Users (snd (forgotPassword config isEmail env rq st1))
      = Users (snd (forgotPassword config isEmail env rq st2)))
  /\ (fst (resetPassword isEmail credential env rq st1)
      = fst (resetPassword isEmail credential env rq st2)
      /\ Users (snd (resetPassword isEmail credential env rq st1))
         = Users (snd (resetPassword isEmail credential env rq st2))).
Proof.
  intros HU. split.
  - unfold forgotPassword. rewrite HU.
    destruct (email_of isEmail (body_email rq)) as [e|]; [|now split].
    destruct (findOne (q_email e) (Users st2)) as [[i u]|].
    + destruct (reset_limit (now env) u); [now split|].
      cbn [fst snd]. rewrite !Users_Jobs_create, !Users_reset_sent. cbn.
      now rewrite HU.
    + cbn [fst snd]. now rewrite !Users_reset_sent.
  - unfold resetPassword. rewrite HU.
    destruct (email_of isEmail (body_email rq)) as [e|]; [|now split].
    destruct (nonblank_of (body_password rq)) as [password|]; [|now split].
    destruct (nonblank_of (params_token rq)) as [token|]; [|now split].
    destruct (findOne _ (Users st2)) as [[i u]|]; [|now split].
    destruct (setPassword _ _ _); cbn [fst snd];
      rewrite !Users_reset_finally; now rewrite HU.
Qed.

End SessionIndependence.


(** ** Validation *)


Section Validation.

Variable config : Config.
Variable isEmail : string -> bool.
Variable credential : string -> option string.


End Validation.

(** ** Administrators *)

Lemma count_snoc (q : User -> bool) (us : list User) (u : User) :
  count q (us ++ [u]) = (count q us + (if q u then 1 else 0))%nat.
Proof.
  unfold count. rewrite List.filter_app, length_app. cbn.
  now destruct (q u).
Qed.

Lemma count_insert (g : string) (us : list User) (i : nat) (u u' : User) :
  us !! i = Some u -> group u' = group u ->
  count (q_group g) (<[i:=u']> us) = count (q_group g) us.
Proof.
  revert i. induction us as [|w us IH]; intros i Hi Hg; [discriminate|].
  destruct i as [|i]; cbn [lookup list_lookup] in Hi;
    cbn [insert list_insert]; unfold count in *; cbn [List.filter].
  - injection Hi as ->. unfold q_group. rewrite Hg.
    now destruct (String.eqb (group u) g).
  - specialize (IH i Hi Hg).
    destruct (q_group g w); cbn [length]; [f_equal|]; exact IH.
Qed.

Section Administrators.

Variable config : Config.
Variable isEmail : string -> bool.
Variable credential : string -> option string.

Lemma run_admins (c : Call) (st : State) :
  let n := count (q_group "admin") (Users st) in
  let n' := count (q_group "admin")
              (Users (snd (run config isEmail credential c st))) in
  n' = n \/ (n = 0%nat /\ n' = 1%nat).
Proof.
  cbv zeta. destruct c as [rq|env rq|env rq|env rq]; cbn [run].
  - rewrite registerOrLogin_Users. now left.
  - unfold register.
    destruct (email_of isEmail (body_email rq)) as [e|]; [|now left].
    destruct (nonblank_of (body_password rq)) as [password|]; [|now left].
    unfold registerAsync, setPassword.
    destruct (existsb (q_email e) (Users st)); [now left|].
    destruct (credential password) as [h|]; [|now left].
    match goal with
    | |- context [take_redirectTo config rq ?s] =>
        pose proof (take_redirectTo_frame config rq s) as (_ & _ & _ & _ & HU & _);
        destruct (take_redirectTo config rq s) as [target st1]
    end.
    cbn [fst snd] in *. rewrite Users_Jobs_create.
    replace (Users (if accepts_json rq then _ else _)) with (Users st1)
      by now destruct (accepts_json rq).
    rewrite HU. cbn [Users ctx_login set_session_user set_Users].
    rewrite count_snoc. unfold q_group at 2, set_hash. cbn [group].
    destruct (Nat.eqb_spec (count (q_group "admin") (Users st)) 0) as [Hz|Hz].
    + right. rewrite Hz. now split.
    + left. cbn. lia.
  - unfold forgotPassword.
    destruct (email_of isEmail (body_email rq)) as [e|]; [|now left].
    destruct (findOne (q_email e) (Users st)) as [[i u]|] eqn:Hf.
    + destruct (reset_limit (now env) u); [now left|]. left.
      cbn [snd]. rewrite Users_Jobs_create, Users_reset_sent.
      apply findOne_Some in Hf as (Hi & _).
      now apply count_insert with (u := u).
    + left. cbn [snd]. now rewrite Users_reset_sent.
  - unfold resetPassword.
    destruct (email_of isEmail (body_email rq)) as [e|]; [|now left].
    destruct (nonblank_of (body_password rq)) as [password|]; [|now left].
    destruct (nonblank_of (params_token rq)) as [token|]; [|now left].
    destruct (findOne _ _) as [[i u]|] eqn:Hf; [|now left]. left.
    apply findOne_Some in Hf as (Hi & _).
    destruct (setPassword _ _ _) as [u'|] eqn:Hu; cbn [snd];
      rewrite Users_reset_finally.
    + apply setPassword_fields in Hu as (_ & Hg & _).
      now apply count_insert with (u := u).
    + now apply count_insert with (u := u).
Qed.

(** X22.  At most one administrator comes out of registrations.  Along
    any sequence of calls the number of accounts of group admin never
    goes down, and it never exceeds one if it did not at the start; in
    particular, starting from an empty collection, all registrations but
    the first create plain users. *)
Theorem at_most_one_admin (cs : list Call) (st : State) :
  let n := count (q_group "admin") (Users st) in
  let n' := count (q_group "admin")
              (Users (runs config isEmail credential cs st)) in
  (n <= n')%nat /\ ((n <= 1)%nat -> (n' <= 1)%nat).
Proof.
  cbv zeta. revert st. induction cs as [|c cs IH]; intros st; [cbn; lia|].
  cbn [runs]. specialize (IH (snd (run config isEmail credential c st))).
  pose proof (run_admins c st) as H. cbv zeta in H. lia.
Qed.

(** X23.  Showing the form again changes nothing.  After
    [registerOrLogin], a second [registerOrLogin] with the same request
    leaves the same pending redirect in the session. *)
Theorem registerOrLogin_twice (rq : Request) (st : State) :
  let st1 := snd (registerOrLogin config rq st) in
  session_returnTo (snd (registerOrLogin config rq st1)) = session_returnTo st1.
Proof.
  cbv zeta. rewrite !registerOrLogin_returnTo. unfold take_return_to.
  destruct (nonblank_of (query_return_to rq)) as [c|] eqn:H1;
    [|destruct (nonblank_of (query_redirect_to rq)) as [c|] eqn:H2].
  1,2: reflexivity.
  rewrite registerOrLogin_returnTo. unfold take_return_to. rewrite H1, H2.
  destruct (hijacking config (session_returnTo st)) eqn:Hh;
    [reflexivity | now rewrite Hh].
Qed.

End Administrators.

(** ** The further properties on sample requests *)

Lemma register_redirect_is_safe_witness :
  let st2 := snd (register Sample.config Sample.isEmail Sample.credential
                    (Sample.env 0 "-") (Sample.post "a@x.com" "pw123" "")
                    (snd (registerOrLogin Sample.config
                            (Sample.get "https://evil.example/x")
                            (Sample.fresh [])))) in
  exists target : string,
    response st2 = Body_redirectTo target
    /\ (target = "/" +:+ "en" +:+ "/dashboard"
        \/ ~ Js.Contains target "://"
        \/ Js.BeginsWith target "https://app.example").
Proof.
  exact (register_redirect_is_safe Sample.config Sample.isEmail Sample.credential
           (Sample.env 0 "-") (Sample.get "https://evil.example/x")
           (Sample.post "a@x.com" "pw123" "") (Sample.fresh []) _ eq_refl).
Defined.


Lemma register_logs_in_new_account_witness :
  let st := set_returnTo (Some "/settings") (Sample.fresh [Sample.alice]) in
  let st' := snd (register Sample.config Sample.isEmail Sample.credential
                    (Sample.env 0 "-") (Sample.post "c@x.com" "pw123" "") st) in
  exists u : User,
    last (Users st') = Some u
    /\ session_user st' = Some u
    /\ reset_token u = None /\ reset_token_expires_at u = None
    /\ (session_returnTo st' = None \/ session_returnTo st' = Some "")
    /\ flashes st' = [] ++ [flash_custom "Thanks!" (translate REGISTERED)].
Proof.
  exact (register_logs_in_new_account Sample.config Sample.isEmail
           Sample.credential (Sample.env 0 "-")
           (Sample.post "c@x.com" "pw123" "")
           (set_returnTo (Some "/settings") (Sample.fresh [Sample.alice]))
           _ eq_refl).
Defined.

Lemma register_welcome_job_best_effort_witness :
  let env := mkEnv 0 "-" (Some "queue is down") in
  let st' := snd (register Sample.config Sample.isEmail Sample.credential env
                    (Sample.post "c@x.com" "pw123" "") (Sample.fresh [])) in
  exists u : User,
    session_user st' = Some u
    /\ Jobs st' = [] /\ logger st' = [] ++ [log_error "queue is down"].
Proof.
  exact (proj2 (register_welcome_job_best_effort Sample.config Sample.isEmail
                  Sample.credential)
           (mkEnv 0 "-" (Some "queue is down"))
           (Sample.post "c@x.com" "pw123" "") (Sample.fresh []) _ eq_refl).
Defined.

Lemma forgotPassword_link_matches_token_witness :
  let st := Sample.fresh [Sample.alice; Sample.bob] in
  let st' := snd (forgotPassword Sample.config Sample.isEmail
                    (Sample.env 1000 "tok-9") (Sample.post "b@x.com" "" "") st) in
  (Jobs st' = Jobs st
   /\ ((forall e : string,
          email_of Sample.isEmail (body_email (Sample.post "b@x.com" "" ""))
          = Some e ->
          findOne (q_email e) (Users st) = None)
       \/ jobs_failure (Sample.env 1000 "tok-9") <> None))
  \/ exists (i : nat) (u' : User) (tok : string),
       Users st' !! i = Some u'
       /\ reset_token u' = Some tok
       /\ Jobs st' = Jobs st ++
            [mkJob "email" "reset-password" (email u')
               (ResetLocals (display_name u') (reset_token_expires_at u')
                  (urls_web Sample.config +:+ "/reset-password/" +:+ tok))].
Proof.
  exact (forgotPassword_link_matches_token Sample.config Sample.isEmail
           (Sample.env 1000 "tok-9") (Sample.post "b@x.com" "" "")
           (Sample.fresh [Sample.alice; Sample.bob]) _ eq_refl).
Defined.

Lemma forgotPassword_keeps_credentials_witness :
  let st := Sample.fresh [Sample.alice; Sample.bob] in
  let st' := snd (forgotPassword Sample.config Sample.isEmail
                    (Sample.env 1000 "tok-9") (Sample.post "b@x.com" "" "") st) in
  length (Users st') = length (Users st)
  /\ exists u' : User,
       Users st' !! 1%nat = Some u'
       /\ email u' = email Sample.bob /\ group u' = group Sample.bob
       /\ display_name u' = display_name Sample.bob
       /\ hash u' = hash Sample.bob
       /\ (email_of Sample.isEmail (body_email (Sample.post "b@x.com" "" ""))
           <> Some (email Sample.bob) -> u' = Sample.bob).
Proof.
  exact (forgotPassword_keeps_credentials Sample.config Sample.isEmail
           (Sample.env 1000 "tok-9") (Sample.post "b@x.com" "" "")
           (Sample.fresh [Sample.alice; Sample.bob]) 1%nat Sample.bob eq_refl).
Defined.

Lemma resetPassword_touches_only_the_match_witness :
  let st := Sample.fresh [Sample.alice; Sample.bob] in
  let rq := Sample.post "a@x.com" "pw123" "tok-1" in
  let env := Sample.env 600000 "-" in
  let st' := snd (resetPassword Sample.isEmail Sample.credential env rq st) in
  length (Users st') = length (Users st)
  /\ exists u' : User,
       Users st' !! 1%nat = Some u'
       /\ email u' = email Sample.bob /\ group u' = group Sample.bob
       /\ display_name u' = display_name Sample.bob
       /\ reset_token_expires_at u' = reset_token_expires_at Sample.bob
       /\ ((forall e token : string,
              email_of Sample.isEmail (body_email rq) = Some e ->
              nonblank_of (params_token rq) = Some token ->
              q_reset e token (now env) Sample.bob = false) ->
           u' = Sample.bob).
Proof.
  exact (resetPassword_touches_only_the_match Sample.isEmail Sample.credential
           (Sample.env 600000 "-") (Sample.post "a@x.com" "pw123" "tok-1")
           (Sample.fresh [Sample.alice; Sample.bob]) 1%nat Sample.bob eq_refl).
Defined.

Lemma issue_then_consume_witness :
  let st := Sample.fresh [Sample.alice; Sample.bob] in
  let st1 := snd (forgotPassword Sample.config Sample.isEmail
                    (Sample.env 1000 "tok-9") (Sample.post "b@x.com" "" "") st) in
  let r := resetPassword Sample.isEmail Sample.credential
             (Sample.env 1801000 "-") (Sample.post "b@x.com" "pw123" "tok-9")
             st1 in
  fst r = Returned
  /\ exists u' : User,
       Users (snd r) !! 1%nat = Some u'
       /\ session_user (snd r) = Some u'
       /\ email u' = "b@x.com" /\ hash u' = "pbkdf2$pw123"
       /\ reset_token u' = None.
Proof.
  refine (issue_then_consume Sample.config Sample.isEmail Sample.credential
            (Sample.env 1000 "tok-9") (Sample.env 1801000 "-")
            (Sample.post "b@x.com" "" "") (Sample.post "b@x.com" "pw123" "tok-9")
            (Sample.fresh [Sample.alice; Sample.bob])
            "b@x.com" "pw123" "pbkdf2$pw123" 1%nat Sample.bob
            eq_refl eq_refl eq_refl eq_refl eq_refl eq_refl eq_refl eq_refl _).
  vm_compute. discriminate.
Defined.

Lemma second_forgotPassword_is_limited_witness :
  let st := Sample.fresh [Sample.alice; Sample.bob] in
  let st1 := snd (forgotPassword Sample.config Sample.isEmail
                    (Sample.env 1000 "tok-9") (Sample.post "b@x.com" "" "") st) in
  forgotPassword Sample.config Sample.isEmail (Sample.env 86400000 "tok-10")
    (Sample.post "b@x.com" "" "") st1 =
  (Thrown (badRequest
             (translate_with PASSWORD_RESET_LIMIT
                (Moment.add_minutes 1000 30 - 86400000))),
   st1).
Proof.
  refine (second_forgotPassword_is_limited Sample.config Sample.isEmail
            (Sample.env 1000 "tok-9") (Sample.env 86400000 "tok-10")
            (Sample.post "b@x.com" "" "") (Sample.post "b@x.com" "" "")
            (Sample.fresh [Sample.alice; Sample.bob])
            "b@x.com" 1%nat Sample.bob eq_refl eq_refl eq_refl _ eq_refl _).
  - discriminate.
  - reflexivity.
Defined.



Lemma reset_flows_ignore_session_witness :
  let env := Sample.env 600000 "tok-9" in
  let rq := Sample.post "a@x.com" "pw123" "tok-1" in
  let st1 := Sample.fresh [Sample.alice] in
  let st2 := snd (logout rq (ctx_login Sample.bob st1)) in
  (fst (forgotPassword Sample.config Sample.isEmail env rq st1)
   = fst (forgotPassword Sample.config Sample.isEmail env rq st2)
   /\ Users (snd (forgotPassword Sample.config Sample.isEmail env rq st1))
      = Users (snd (forgotPassword Sample.config Sample.isEmail env rq st2)))
  /\ (fst (resetPassword Sample.isEmail Sample.credential env rq st1)
      = fst (resetPassword Sample.isEmail Sample.credential env rq st2)
      /\ Users (snd (resetPassword Sample.isEmail Sample.credential env rq st1))
         = Users (snd (resetPassword Sample.isEmail Sample.credential env rq st2))).
Proof.
  exact (reset_flows_ignore_session Sample.config Sample.isEmail
           Sample.credential (Sample.env 600000 "tok-9")
           (Sample.post "a@x.com" "pw123" "tok-1")
           (Sample.fresh [Sample.alice])
           (snd (logout (Sample.post "a@x.com" "pw123" "tok-1")
                   (ctx_login Sample.bob (Sample.fresh [Sample.alice]))))
           eq_refl).
Defined.


Lemma at_most_one_admin_witness :
  let cs := [call_register (Sample.env 0 "-") (Sample.post "a@x.com" "pw123" "");
             call_register (Sample.env 1 "-") (Sample.post "c@x.com" "pw123" "");
             call_register (Sample.env 2 "-") (Sample.post "d@x.com" "pw123" "")] in
  let st' := runs Sample.config Sample.isEmail Sample.credential cs
               (Sample.fresh []) in
  group <$> Users st' = ["admin"; "user"; "user"]
  /\ (0 <= count (q_group "admin") (Users st'))%nat
  /\ ((0 <= 1)%nat -> (count (q_group "admin") (Users st') <= 1)%nat).
Proof.
  split; [reflexivity|].
  exact (at_most_one_admin Sample.config Sample.isEmail Sample.credential
           [call_register (Sample.env 0 "-") (Sample.post "a@x.com" "pw123" "");
            call_register (Sample.env 1 "-") (Sample.post "c@x.com" "pw123" "");
            call_register (Sample.env 2 "-") (Sample.post "d@x.com" "pw123" "")]
           (Sample.fresh [])).
Defined.
